(** * The countdown dialog of [electrum/gui/qt/transaction_dialog_timeout.py]

    A shallow embedding of [TxDialogTimeout] and [show_transaction_timeout]:
    the dialog object is a record threaded through its methods, the module
    level list [dialogs], the cosigner pool [server], the parent window and
    the Python objects the caller hands in form the [World].

    What the file leaves out is widget layout and text rendering ([add_io],
    [add_tx_stats], the labels other than the countdown label, [show_qr]),
    the plugin hooks ([run_hook]) and the balanced
    [push_top_level_window]/[pop_top_level_window] bookkeeping on the
    parent window. *)

From Stdlib Require Import ZArith Lia.
From stdpp Require Import gmap strings list fin_maps pretty.

(** ** Python objects shared between the caller and the dialog *)

(** References to Python objects.  [copy.deepcopy] allocates a new one. *)
Definition loc := nat.

(** A store of objects of one class: the cell behind every reference and the
    next reference [copy.deepcopy] hands out. *)
Record Store (A : Type) := mkStore {
  cells : loc -> A;
  next_loc : loc;
}.
Arguments mkStore {A} _ _.
Arguments cells {A} _ _.
Arguments next_loc {A} _.

Definition read {A} (s : Store A) (l : loc) : A := cells s l.

(** In-place mutation of the object behind [l]. *)
Definition write {A} (l : loc) (v : A) (s : Store A) : Store A :=
  mkStore (fun l' => if decide (l' = l) then v else cells s l') (next_loc s).

(** [copy.deepcopy(x)]: a new object, equal in content, sharing nothing. *)
Definition deepcopy {A} (l : loc) (s : Store A) : loc * Store A :=
  (next_loc s,
   mkStore (fun l' => if decide (l' = next_loc s) then cells s l else cells s l')
           (S (next_loc s))).

(** ** The cosigner pool server *)

(** The record kept per wallet, [{ walletHash, timestamp }]. *)
Record LockRecord := mkLockRecord {
  walletHash : string;
  timestamp : Z;
}.

(** The calls the dialog makes on [server], in the order it makes them. *)
Inductive ServerCall :=
| CallLock                     (* server.lock *)
| CallGetCurrentTime           (* server.get_current_time() *)
| CallWalletHash               (* server.wallet_hash() *)
| CallDelete (k : string)      (* server.delete(k) *)
| CallDelLock.                 (* del server.lock *)

#[global] Instance ServerCall_eq_dec : EqDecision ServerCall.
Proof. solve_decision. Defined.

(** Modelled from the spec: [electrum_exos.plugins.cosigner_pool.server] is
    not part of the dialog's file.  The spec describes it as a remote
    key-value store keyed by wallet identity that holds a single timestamped
    lock record per wallet, with [getLock(walletHash) -> LockRecord | absent]
    and [deleteLock(walletHash)], where releasing a lock that is not there is
    a no-op and not an error.  [calls] records what the dialog asked for. *)
Record Server := mkServer {
  store : gmap string LockRecord;
  own_hash : string;
  clock : Z;
  calls : list ServerCall;
}.

(** Modelled from the spec: every call on the server is noted in [calls]. *)
Definition log (c : ServerCall) (sv : Server) : Server :=
  mkServer (store sv) (own_hash sv) (clock sv) (calls sv ++ [c]).

(** Modelled from the spec: [server.lock] is [getLock] for the wallet's own
    hash, the record or nothing. *)
Definition server_lock (sv : Server) : option LockRecord * Server :=
  (store sv !! own_hash sv, log CallLock sv).

(** Modelled from the spec: [server.get_current_time()] is the server's
    clock, the authority the countdown is seeded from. *)
Definition server_get_current_time (sv : Server) : Z * Server :=
  (clock sv, log CallGetCurrentTime sv).

(** Modelled from the spec: [server.wallet_hash()] is the identity the
    wallet's record is kept under. *)
Definition server_wallet_hash (sv : Server) : string * Server :=
  (own_hash sv, log CallWalletHash sv).

(** Modelled from the spec: [server.delete(k)] is [deleteLock(k)]; deleting
    what is not there changes nothing. *)
Definition server_delete (k : string) (sv : Server) : Server :=
  mkServer (delete k (store sv)) (own_hash sv) (clock sv)
           (calls sv ++ [CallDelete k]).

(** Modelled from the spec: [del server.lock] is [deleteLock] for the
    wallet's own hash. *)
Definition server_del_lock (sv : Server) : Server :=
  mkServer (delete (own_hash sv) (store sv)) (own_hash sv) (clock sv)
           (calls sv ++ [CallDelLock]).

(** How often [del server.lock] was executed. *)
Definition del_lock_count (sv : Server) : nat :=
  count_occ ServerCall_eq_dec (calls sv) CallDelLock.

(** ** Module constants *)

Definition DURATION_INT : Z := 60 * 10.

(** The text [show_transaction_timeout] reports before the error's own. *)
Definition deserialize_failure_text : string :=
  "EXOS-Electrum was unable to deserialize the transaction:".

Definition newline : string := String (Ascii.ascii_of_nat 10) EmptyString.

(** ** Wallets *)

(** The class of the wallet object; the dialog tests
    [type(self.wallet) == Multisig_Wallet], which no subclass passes. *)
Inductive WalletClass :=
| Standard_Wallet
| Imported_Wallet
| Multisig_Wallet
| Other_Wallet (name : string).

#[global] Instance WalletClass_eq_dec : EqDecision WalletClass.
Proof. solve_decision. Defined.

(** Exceptions that cross the dialog's methods. *)
Inductive Exc :=
| SerializationError (msg : string)
| ValueError
| TransportError (msg : string).

Section Dialog.

(** [electrum_exos.transaction.Transaction] and the [signed] argument are
    classes of other modules; the dialog uses the two methods below. *)
Context {Transaction Signed : Type}.

(** [tx.deserialize()]: the parsed transaction, or the text of what it
    raised. *)
Variable deserialize : Transaction -> string + Transaction.

(** [tx.is_complete()] *)
Variable is_complete : Transaction -> bool.

(** The wallet, as the dialog sees it. *)
Record Wallet := mkWallet {
  wallet_class : WalletClass;
  can_sign : Transaction -> bool;             (* wallet.can_sign(tx) *)
  can_broadcast : Transaction -> bool;        (* wallet.get_tx_info(tx).can_broadcast *)
  add_inputs_info : Transaction -> Transaction; (* tx.add_inputs_info(wallet) *)
}.

(** [type(self.wallet) == Multisig_Wallet] *)
Definition is_multisig (wl : Wallet) : bool :=
  bool_decide (wallet_class wl = Multisig_Wallet).

(** The parent [ElectrumWindow]. *)
Record MainWindow := mkMainWindow {
  wallet_of : Wallet;                          (* parent.wallet *)
  tx_external_keypairs : gmap string string;   (* a dict, empty when unused *)
}.

(** [bool(d)] of a dict *)
Definition dict_bool (d : gmap string string) : bool :=
  negb (bool_decide (d = ∅)).

(** ** The dialog object *)

Record TxDialogTimeout := mkDialog {
  oid : nat;                    (* the identity of the object *)
  tx : loc;                     (* self.tx *)
  signed : loc;                 (* self.signed *)
  wallet : Wallet;              (* self.wallet *)
  prompt_if_unsaved : bool;
  saved : bool;
  desc : option string;
  time_left_int : Z;
  my_qtimer : bool;             (* whether timer_start has run *)
  timed_out : bool;             (* set by the tick that expires the dialog *)
  visible : bool;               (* isVisible() *)
  sign_button : bool;           (* enabled? *)
  broadcast_button : bool;
  save_button : bool;
  time_out_label : Z * Z;       (* minutes and seconds of "Time left: mm:ss" *)
}.

Record World := mkWorld {
  txs : Store Transaction;
  signeds : Store Signed;
  dialogs : list nat;           (* the module-level list, by object identity *)
  next_oid : nat;
  server : Server;
  main_window : MainWindow;
  critical_shown : list string; (* texts passed to parent.show_critical *)
}.

Definition with_txs (s : Store Transaction) (w : World) : World :=
  mkWorld s (signeds w) (dialogs w) (next_oid w) (server w) (main_window w)
          (critical_shown w).

Definition with_signeds (s : Store Signed) (w : World) : World :=
  mkWorld (txs w) s (dialogs w) (next_oid w) (server w) (main_window w)
          (critical_shown w).

Definition with_dialogs (l : list nat) (w : World) : World :=
  mkWorld (txs w) (signeds w) l (next_oid w) (server w) (main_window w)
          (critical_shown w).

Definition with_next_oid (n : nat) (w : World) : World :=
  mkWorld (txs w) (signeds w) (dialogs w) n (server w) (main_window w)
          (critical_shown w).

Definition with_server (sv : Server) (w : World) : World :=
  mkWorld (txs w) (signeds w) (dialogs w) (next_oid w) sv (main_window w)
          (critical_shown w).

Definition show_critical (msg : string) (w : World) : World :=
  mkWorld (txs w) (signeds w) (dialogs w) (next_oid w) (server w)
          (main_window w) (critical_shown w ++ [msg]).

Definition set_time_left_int (v : Z) (d : TxDialogTimeout) : TxDialogTimeout :=
  mkDialog (oid d) (tx d) (signed d) (wallet d) (prompt_if_unsaved d) (saved d)
           (desc d) v (my_qtimer d) (timed_out d) (visible d) (sign_button d)
           (broadcast_button d) (save_button d) (time_out_label d).

Definition set_my_qtimer (v : bool) (d : TxDialogTimeout) : TxDialogTimeout :=
  mkDialog (oid d) (tx d) (signed d) (wallet d) (prompt_if_unsaved d) (saved d)
           (desc d) (time_left_int d) v (timed_out d) (visible d)
           (sign_button d) (broadcast_button d) (save_button d)
           (time_out_label d).

Definition set_timed_out (v : bool) (d : TxDialogTimeout) : TxDialogTimeout :=
  mkDialog (oid d) (tx d) (signed d) (wallet d) (prompt_if_unsaved d) (saved d)
           (desc d) (time_left_int d) (my_qtimer d) v (visible d)
           (sign_button d) (broadcast_button d) (save_button d)
           (time_out_label d).

Definition set_visible (v : bool) (d : TxDialogTimeout) : TxDialogTimeout :=
  mkDialog (oid d) (tx d) (signed d) (wallet d) (prompt_if_unsaved d) (saved d)
           (desc d) (time_left_int d) (my_qtimer d) (timed_out d) v
           (sign_button d) (broadcast_button d) (save_button d)
           (time_out_label d).

Definition set_saved (v : bool) (d : TxDialogTimeout) : TxDialogTimeout :=
  mkDialog (oid d) (tx d) (signed d) (wallet d) (prompt_if_unsaved d) v
           (desc d) (time_left_int d) (my_qtimer d) (timed_out d) (visible d)
           (sign_button d) (broadcast_button d) (save_button d)
           (time_out_label d).

Definition set_prompt_if_unsaved (v : bool) (d : TxDialogTimeout)
  : TxDialogTimeout :=
  mkDialog (oid d) (tx d) (signed d) (wallet d) v (saved d)
           (desc d) (time_left_int d) (my_qtimer d) (timed_out d) (visible d)
           (sign_button d) (broadcast_button d) (save_button d)
           (time_out_label d).

Definition set_sign_button (v : bool) (d : TxDialogTimeout) : TxDialogTimeout :=
  mkDialog (oid d) (tx d) (signed d) (wallet d) (prompt_if_unsaved d) (saved d)
           (desc d) (time_left_int d) (my_qtimer d) (timed_out d) (visible d)
           v (broadcast_button d) (save_button d) (time_out_label d).

Definition set_broadcast_button (v : bool) (d : TxDialogTimeout)
  : TxDialogTimeout :=
  mkDialog (oid d) (tx d) (signed d) (wallet d) (prompt_if_unsaved d) (saved d)
           (desc d) (time_left_int d) (my_qtimer d) (timed_out d) (visible d)
           (sign_button d) v (save_button d) (time_out_label d).

Definition set_save_button (v : bool) (d : TxDialogTimeout) : TxDialogTimeout :=
  mkDialog (oid d) (tx d) (signed d) (wallet d) (prompt_if_unsaved d) (saved d)
           (desc d) (time_left_int d) (my_qtimer d) (timed_out d) (visible d)
           (sign_button d) (broadcast_button d) v (time_out_label d).

Definition set_time_out_label (v : Z * Z) (d : TxDialogTimeout)
  : TxDialogTimeout :=
  mkDialog (oid d) (tx d) (signed d) (wallet d) (prompt_if_unsaved d) (saved d)
           (desc d) (time_left_int d) (my_qtimer d) (timed_out d) (visible d)
           (sign_button d) (broadcast_button d) (save_button d) v.

(** ** Methods of the dialog *)

(** [update], lines 265-321: the broadcast and sign buttons and the countdown
    label.  [divmod] rounds towards minus infinity, as [Z.div] and
    [Z.modulo] do for the positive divisor 60. *)
Definition update (d : TxDialogTimeout) (w : World) : TxDialogTimeout :=
  let t := read (txs w) (tx d) in
  let d := set_broadcast_button (can_broadcast (wallet d) t) d in
  let can_sign_ :=
    negb (is_complete t)
    && (can_sign (wallet d) t
        || dict_bool (tx_external_keypairs (main_window w))) in
  let d := set_sign_button can_sign_ d in
  set_time_out_label
    ((time_left_int d / 60)%Z, (time_left_int d mod 60)%Z) d.

(** [timer_start], lines 192-197 *)
Definition timer_start (d : TxDialogTimeout) (w : World) : TxDialogTimeout :=
  update (set_my_qtimer true d) w.

(** [release_lock], lines 206-208 *)
Definition release_lock (d : TxDialogTimeout) (w : World) : World :=
  if is_multisig (wallet d)
  then with_server (server_del_lock (server w)) w
  else w.

(** [dialogs.remove(x)]: drops the first occurrence; [None] stands for the
    [ValueError] Python raises when there is none. *)
Fixpoint list_remove (x : nat) (l : list nat) : option (list nat) :=
  match l with
  | [] => None
  | y :: l' =>
      if decide (x = y) then Some l'
      else match list_remove x l' with
           | Some r => Some (y :: r)
           | None => None
           end
  end.

(** [closeEvent], lines 210-216.  The [ValueError] of [dialogs.remove] skips
    [release_lock] and is swallowed by the handler. *)
Definition closeEvent (d : TxDialogTimeout) (w : World) : World :=
  match list_remove (oid d) (dialogs w) with
  | Some l => release_lock d (with_dialogs l w)
  | None => w
  end.

(** [QWidget.close()]: Qt delivers a close event and, the handler having
    accepted it, hides the widget. *)
Definition close (d : TxDialogTimeout) (w : World) : TxDialogTimeout * World :=
  (set_visible false d, closeEvent d w).

(** [reject], lines 218-220 *)
Definition reject (d : TxDialogTimeout) (w : World) : TxDialogTimeout * World :=
  close d w.

(** [QWidget.show()] *)
Definition show (d : TxDialogTimeout) : TxDialogTimeout := set_visible true d.

(** [timer_timeout], lines 199-204 *)
Definition timer_timeout (d : TxDialogTimeout) (w : World)
  : TxDialogTimeout * World :=
  let d := set_time_left_int (time_left_int d - 1)%Z d in
  let '(d, w) :=
    if (time_left_int d =? 0)%Z && visible d
    then close (set_timed_out true d) w
    else (d, w) in
  (update d w, w).

(** What [main_window.broadcast_transaction] did. *)
Inductive BroadcastOutcome :=
| BroadcastReturns
| BroadcastRaises (e : Exc).

(** [do_broadcast], lines 177-190.  The [finally] block runs on both
    outcomes; an exception then goes on to the caller and skips the last two
    statements. *)
Definition do_broadcast (o : BroadcastOutcome) (d : TxDialogTimeout) (w : World)
  : option Exc * TxDialogTimeout * World :=
  let w :=
    if is_multisig (wallet d)
    then let '(wallet_hash, sv) := server_wallet_hash (server w) in
         with_server (server_delete wallet_hash sv) w
    else w in
  match o with
  | BroadcastRaises e => (Some e, d, w)
  | BroadcastReturns => (None, update (set_saved true d) w, w)
  end.

(** [sign_done], the callback of [sign], lines 234-242 *)
Definition sign_done (success : bool) (d : TxDialogTimeout) (w : World)
  : TxDialogTimeout :=
  let d :=
    if is_complete (read (txs w) (tx d))
    then set_save_button true (set_saved false (set_prompt_if_unsaved true d))
    else d in
  update d w.

(** [sign], lines 233-246.  [main_window.sign_tx] signs [self.tx] in place,
    leaving [signed_tx] behind the reference, and then calls back.  The
    click and the callback are taken as one event; the time in between,
    with the sign button off, is not a state of its own here. *)
Definition sign (signed_tx : Transaction) (success : bool)
    (d : TxDialogTimeout) (w : World) : TxDialogTimeout * World :=
  let d := set_sign_button false d in
  let w := with_txs (write (tx d) signed_tx (txs w)) w in
  (sign_done success d w, w).

(** [save], lines 248-253; [ok] is what [save_transaction_into_wallet]
    returned. *)
Definition save (ok : bool) (d : TxDialogTimeout) : TxDialogTimeout :=
  if ok then set_saved true (set_save_button false d) else d.

(** [export], lines 256-263; [fileName] is what [getSaveFileName] returned,
    empty when the user cancelled.  An export whose [open] or [write]
    raises leaves the dialog as the cancelled one does. *)
Definition export (fileName : string) (d : TxDialogTimeout) : TxDialogTimeout :=
  if bool_decide (fileName = EmptyString) then d else set_saved true d.

(** The countdown the constructor computes when it finds a lock, line 173. *)
Definition seed_time_left (duration now expire : Z) : Z :=
  (duration - (now - expire))%Z.

(** [int(lock['timestamp']) if lock else None] *)
Definition expire_of (lock : option LockRecord) : option Z :=
  match lock with
  | Some r => Some (timestamp r)
  | None => None
  end.

(** Truth value of [expire]: [None] and [0] are false. *)
Definition truthy (expire : option Z) : bool :=
  match expire with
  | Some e => negb (e =? 0)%Z
  | None => false
  end.

(** [TxDialogTimeout.__init__], lines 80-175.  The object exists before the
    body runs; an exception leaves it to the garbage collector. *)
Definition __init__ (tx_arg signed_arg : loc) (desc_arg : option string)
    (prompt_arg : bool) (w : World) : (Exc + TxDialogTimeout) * World :=
  let self_oid := next_oid w in
  let w := with_next_oid (S self_oid) w in
  let '(tx_copy, s) := deepcopy tx_arg (txs w) in
  let w := with_txs s w in
  let '(signed_copy, s) := deepcopy signed_arg (signeds w) in
  let w := with_signeds s w in
  match deserialize (read (txs w) tx_copy) with
  | inl msg => (inl (SerializationError msg), w)
  | inr t =>
      let w := with_txs (write tx_copy t (txs w)) w in
      let wl := wallet_of (main_window w) in
      let w :=
        with_txs (write tx_copy (add_inputs_info wl (read (txs w) tx_copy))
                        (txs w)) w in
      let d :=
        mkDialog self_oid tx_copy signed_copy wl prompt_arg false desc_arg
                 DURATION_INT false false false true true
                 (is_complete (read (txs w) tx_copy)) (0, 0)%Z in
      let '(lock, sv) := server_lock (server w) in
      let w := with_server sv w in
      let expire := expire_of lock in
      if truthy expire then
        let '(now, sv) := server_get_current_time (server w) in
        let w := with_server sv w in
        let d :=
          set_time_left_int
            (seed_time_left DURATION_INT now (default 0%Z expire)) d in
        let d := timer_start d w in
        (inr (update d w), w)
      else (inr (update d w), w)
  end.

(** [show_transaction_timeout], lines 67-76.  After a failed
    deserialization the function falls off its end and returns [None]. *)
Definition show_transaction_timeout (tx_arg signed_arg : loc)
    (desc_arg : option string) (prompt_arg : bool) (w : World)
  : (Exc + option TxDialogTimeout) * World :=
  match __init__ tx_arg signed_arg desc_arg prompt_arg w with
  | (inl (SerializationError msg), w) =>
      (inr None,
       show_critical
         (String.append deserialize_failure_text (String.append newline msg)) w)
  | (inl e, w) => (inl e, w)
  | (inr d, w) => (inr (Some (show d)), with_dialogs (dialogs w ++ [oid d]) w)
  end.

(** ** The dialog as an event-driven machine *)

(** What can happen to an open dialog: the timer fires, the user presses a
    button or the escape key, and the long-running calls come back. *)
Inductive Event :=
| Tick
| Close
| Reject
| Broadcast (o : BroadcastOutcome)
| Sign (signed_tx : Transaction) (success : bool)
| Save (ok : bool)
| Export (fileName : string).

(** One event.  The timer fires only once [timer_start] has created it; an
    exception of [do_broadcast] ends the handler and the event loop goes
    on. *)
Definition step (e : Event) (d : TxDialogTimeout) (w : World)
  : TxDialogTimeout * World :=
  match e with
  | Tick => if my_qtimer d then timer_timeout d w else (d, w)
  | Close => close d w
  | Reject => reject d w
  | Broadcast o => let '(_, d, w) := do_broadcast o d w in (d, w)
  | Sign t success => sign t success d w
  | Save ok => (save ok d, w)
  | Export f => (export f d, w)
  end.

Fixpoint run (es : list Event) (d : TxDialogTimeout) (w : World)
  : TxDialogTimeout * World :=
  match es with
  | [] => (d, w)
  | e :: es' => let '(d, w) := step e d w in run es' d w
  end.

(** The dialog's events interleaved with what other code does to objects of
    the caller. *)
Inductive Activity :=
| Ui (e : Event)
| MutateTx (l : loc) (v : Transaction)
| MutateSigned (l : loc) (v : Signed).

Definition act (a : Activity) (d : TxDialogTimeout) (w : World)
  : TxDialogTimeout * World :=
  match a with
  | Ui e => step e d w
  | MutateTx l v => (d, with_txs (write l v (txs w)) w)
  | MutateSigned l v => (d, with_signeds (write l v (signeds w)) w)
  end.

Fixpoint run_all (acts : list Activity) (d : TxDialogTimeout) (w : World)
  : TxDialogTimeout * World :=
  match acts with
  | [] => (d, w)
  | a :: acts' => let '(d, w) := act a d w in run_all acts' d w
  end.

(** The dialog's own events among the activities. *)
Fixpoint ui_only (acts : list Activity) : list Event :=
  match acts with
  | [] => []
  | Ui e :: acts' => e :: ui_only acts'
  | _ :: acts' => ui_only acts'
  end.

End Dialog.

(** ** The states the specification names *)

(** The countdown has run out: the expiring tick has set [timed_out]. *)
Definition Expired {Transaction : Type} (d : @TxDialogTimeout Transaction)
  : Prop :=
  timed_out d = true.

(** The dialog has been closed: it is hidden and no longer in [dialogs]. *)
Definition Closed {Transaction Signed : Type}
    (d : @TxDialogTimeout Transaction) (w : @World Transaction Signed) : Prop :=
  visible d = false ∧ oid d ∉ dialogs w.

(** How many ticks a list of events holds. *)
Fixpoint ticks {Transaction : Type} (es : list (@Event Transaction)) : nat :=
  match es with
  | [] => 0
  | Tick :: es' => S (ticks es')
  | _ :: es' => ticks es'
  end.

(** [del server.lock] is paid for with an entry of [dialogs]: what the
    theorems about closing bound is the number of deletions so far plus the
    occurrences of the dialog in the list. *)
Definition release_budget {Transaction Signed : Type}
    (d : @TxDialogTimeout Transaction) (w : @World Transaction Signed) : nat :=
  del_lock_count (server w) + count_occ Nat.eq_dec (dialogs w) (oid d).

(** Two worlds that agree on everything the dialog can reach: the objects
    behind [self.tx] and [self.signed], [dialogs], the server and the parent
    window. *)
Definition same_for {Transaction Signed : Type}
    (d : @TxDialogTimeout Transaction) (w1 w2 : @World Transaction Signed)
  : Prop :=
  read (txs w1) (tx d) = read (txs w2) (tx d)
  ∧ read (signeds w1) (signed d) = read (signeds w2) (signed d)
  ∧ dialogs w1 = dialogs w2
  ∧ next_oid w1 = next_oid w2
  ∧ server w1 = server w2
  ∧ main_window w1 = main_window w2
  ∧ critical_shown w1 = critical_shown w2.

(** An activity that does not write to the objects the dialog holds. *)
Definition foreign_to {Transaction Signed : Type}
    (d : @TxDialogTimeout Transaction) (a : @Activity Transaction Signed)
  : Prop :=
  match a with
  | Ui _ => True
  | MutateTx l _ => l ≠ tx d
  | MutateSigned l _ => l ≠ signed d
  end.

(** An activity whose mutations are of objects that exist in [w]. *)
Definition older_than {Transaction Signed : Type}
    (w : @World Transaction Signed) (a : @Activity Transaction Signed) : Prop :=
  match a with
  | Ui _ => True
  | MutateTx l _ => l < next_loc (txs w)
  | MutateSigned l _ => l < next_loc (signeds w)
  end.

(** What [show_transaction_timeout] maintains of [dialogs]: every dialog is
    listed once, and under an identity that has been handed out. *)
Definition registry_ok {Transaction Signed : Type}
    (w : @World Transaction Signed) : Prop :=
  NoDup (dialogs w) ∧ ∀ i, i ∈ dialogs w → i < next_oid w.

(** The calls that only read the server. *)
Definition is_read (c : ServerCall) : bool :=
  match c with
  | CallLock | CallGetCurrentTime | CallWalletHash => true
  | _ => false
  end.

(** ** Texts the dialog composes *)

(** ['{:02d}'.format(n)]: the decimal digits of [n], filled with zeros on
    the left up to two characters, the sign counting as one of them. *)
Definition format_02d (n : Z) : string :=
  if bool_decide (0 ≤ n < 10)%Z then "0" +:+ pretty n else pretty n.

(** The text of the countdown label, lines 315-318, from the minutes and
    seconds [update] has computed. *)
Definition timeformat (label : Z * Z) : string :=
  "Time left: " +:+ format_02d label.1 +:+ ":" +:+ format_02d label.2.

(** What [time_out_label] shows. *)
Definition time_out_text {Transaction : Type}
    (d : @TxDialogTimeout Transaction) : string :=
  timeformat (time_out_label d).

Section ExportName.

Context {Transaction : Type}.
Variable is_complete : Transaction -> bool.

(** [tx.txid()]: the hash in hex, or [None]. *)
Variable txid : Transaction -> option string.

(** The file name [export] proposes, line 257.  [txid()] is evaluated only
    for a complete transaction; the result [None] stands for the
    [TypeError] of slicing [None]. *)
Definition export_name (t : Transaction) : option string :=
  if is_complete t then
    match txid t with
    | Some h => Some ("signed_" +:+ String.substring 0 8 h +:+ ".txn")
    | None => None
    end
  else Some "unsigned.txn".

End ExportName.

(** ** What the dialog keeps true *)

(** The countdown label shows the countdown. *)
Definition label_fresh {Transaction : Type}
    (d : @TxDialogTimeout Transaction) : Prop :=
  time_out_label d = ((time_left_int d / 60)%Z, (time_left_int d mod 60)%Z).

(** The dialog is listed in [dialogs] exactly while it is visible, and it
    is hidden once it has timed out. *)
Definition listed_while_visible {Transaction Signed : Type}
    (d : @TxDialogTimeout Transaction) (w : @World Transaction Signed) : Prop :=
  registry_ok w
  ∧ (visible d = true ↔ oid d ∈ dialogs w)
  ∧ (timed_out d = true → visible d = false).

(** The calls an open dialog makes on the server: it asks for the wallet
    hash and deletes the record under [h]. *)
Definition is_own_delete (h : string) (c : ServerCall) : Prop :=
  c = CallWalletHash ∨ c = CallDelete h ∨ c = CallDelLock.

(** ** A concrete transaction class to run the dialog on *)

Module Sample.

(** A transaction that knows whether its bytes parse and how many of the
    signatures it needs are there. *)
Record SampleTx := mkSampleTx {
  parses : bool;
  have_sigs : nat;
  need_sigs : nat;
}.

Definition sample_deserialize (t : SampleTx) : string + SampleTx :=
  if parses t then inr t else inl "unexpected end of data"%string.

Definition sample_is_complete (t : SampleTx) : bool :=
  need_sigs t <=? have_sigs t.

(** A wallet of class [c] that holds a key for every transaction. *)
Definition sample_wallet (c : WalletClass) : @Wallet SampleTx :=
  mkWallet c (fun _ => true) sample_is_complete (fun t => t).

(** One signature of two. *)
Definition partial_tx : SampleTx := mkSampleTx true 1 2.

(** Both signatures. *)
Definition complete_tx : SampleTx := mkSampleTx true 2 2.

(** Bytes that do not parse. *)
Definition garbage_tx : SampleTx := mkSampleTx false 0 2.

Definition sample_txs : Store SampleTx :=
  mkStore (fun l => if decide (l = 1) then garbage_tx else partial_tx) 2.

Definition sample_signeds : Store (list string) :=
  mkStore (fun _ => []) 1.

(** The server at time [now], holding [lock] for the wallet "w1". *)
Definition sample_server (lock : option Z) (now : Z) : Server :=
  mkServer
    match lock with
    | Some t => {[ "w1"%string := mkLockRecord "w1" t ]}
    | None => ∅
    end
    "w1" now [].

(** No dialog yet; object 0 is a half-signed transaction, object 1 is
    garbage. *)
Definition sample_world (c : WalletClass) (lock : option Z) (now : Z)
  : @World SampleTx (list string) :=
  mkWorld sample_txs sample_signeds [] 0 (sample_server lock now)
          (mkMainWindow (sample_wallet c) ∅) [].

(** [show_transaction_timeout(tx0, signed0, parent)] *)
Definition opened (c : WalletClass) (lock : option Z) (now : Z) :=
  show_transaction_timeout sample_deserialize sample_is_complete
    0 0 None false (sample_world c lock now).

(** A dialog object to fall back on where the constructor raised. *)
Definition blank_dialog : @TxDialogTimeout SampleTx :=
  mkDialog 0 0 0 (sample_wallet Standard_Wallet) false false None 0 false
           false false false false false (0, 0)%Z.

(** The dialog and the world after opening. *)
Definition opened_dialog (c : WalletClass) (lock : option Z) (now : Z)
  : @TxDialogTimeout SampleTx :=
  match (opened c lock now).1 with
  | inr (Some d) => d
  | _ => blank_dialog
  end.

Definition opened_world (c : WalletClass) (lock : option Z) (now : Z)
  : @World SampleTx (list string) :=
  (opened c lock now).2.

(** The multisig dialog opened one second before its lock runs out, and
    what the next tick of its timer leaves. *)
Definition last_second_dialog : @TxDialogTimeout SampleTx :=
  opened_dialog Multisig_Wallet (Some 401%Z) 1000%Z.

Definition last_second_world : @World SampleTx (list string) :=
  opened_world Multisig_Wallet (Some 401%Z) 1000%Z.

Definition expired_dialog : @TxDialogTimeout SampleTx :=
  (step sample_is_complete Tick last_second_dialog last_second_world).1.

Definition expired_world : @World SampleTx (list string) :=
  (step sample_is_complete Tick last_second_dialog last_second_world).2.

(** The multisig dialog opened 100 seconds into the life of its lock. *)
Definition locked_dialog : @TxDialogTimeout SampleTx :=
  opened_dialog Multisig_Wallet (Some 100%Z) 200%Z.

Definition locked_world : @World SampleTx (list string) :=
  opened_world Multisig_Wallet (Some 100%Z) 200%Z.

(** Other code rewrites the caller's objects while the user signs, the
    timer fires and the dialog is closed. *)
Definition busy_afternoon : list (@Activity SampleTx (list string)) :=
  [MutateTx 0 garbage_tx; Ui Tick; Ui (Sign complete_tx true);
   MutateSigned 0 ["cosigner"%string]; Ui (Broadcast BroadcastReturns);
   MutateTx 1 complete_tx; Ui Close].

(** A second dialog opened on the same wallet while the first is up. *)
Definition second_dialog : @TxDialogTimeout SampleTx :=
  match (show_transaction_timeout sample_deserialize sample_is_complete
           0 0 None false locked_world).1 with
  | inr (Some d) => d
  | _ => blank_dialog
  end.

Definition two_dialog_world : @World SampleTx (list string) :=
  (show_transaction_timeout sample_deserialize sample_is_complete
     0 0 None false locked_world).2.

(** What the user does with the first dialog. *)
Definition busy_user : list (@Event SampleTx) :=
  [Tick; Sign complete_tx true; Tick; Export "signed.txn"; Close; Tick].

End Sample.

(** * Properties *)

Section Properties.

Context {Transaction Signed : Type}.
Variable deserialize : Transaction -> string + Transaction.
Variable is_complete : Transaction -> bool.

Implicit Types (d : @TxDialogTimeout Transaction).
Implicit Types (w : @World Transaction Signed).
Implicit Types (es : list (@Event Transaction)).

#[local] Abbreviation update := (update is_complete).
#[local] Abbreviation timer_start := (timer_start is_complete).
#[local] Abbreviation timer_timeout := (timer_timeout is_complete).
#[local] Abbreviation do_broadcast := (do_broadcast is_complete).
#[local] Abbreviation sign_done := (sign_done is_complete).
#[local] Abbreviation sign := (sign is_complete).
#[local] Abbreviation step := (step is_complete).
#[local] Abbreviation run := (run is_complete).
#[local] Abbreviation run_all := (run_all is_complete).
#[local] Abbreviation act := (act is_complete).
#[local] Abbreviation __init__ := (__init__ deserialize is_complete).
#[local] Abbreviation show_transaction_timeout :=
  (show_transaction_timeout deserialize is_complete).

(** ** What [update] touches *)

Lemma update_frame d w :
  oid (update d w) = oid d ∧ tx (update d w) = tx d
  ∧ signed (update d w) = signed d ∧ wallet (update d w) = wallet d
  ∧ prompt_if_unsaved (update d w) = prompt_if_unsaved d
  ∧ saved (update d w) = saved d ∧ desc (update d w) = desc d
  ∧ time_left_int (update d w) = time_left_int d
  ∧ my_qtimer (update d w) = my_qtimer d
  ∧ timed_out (update d w) = timed_out d
  ∧ visible (update d w) = visible d
  ∧ save_button (update d w) = save_button d.
Proof. repeat split. Qed.

Lemma sign_button_update d w :
  sign_button (update d w)
  = negb (is_complete (read (txs w) (tx d)))
    && (can_sign (wallet d) (read (txs w) (tx d))
        || dict_bool (tx_external_keypairs (main_window w))).
Proof. reflexivity. Qed.

(** ** The object stores *)

Lemma read_deepcopy_new {A} (l : loc) (s : Store A) :
  read (deepcopy l s).2 (deepcopy l s).1 = read s l.
Proof. unfold read, deepcopy; simpl. by rewrite decide_True. Qed.

Lemma read_write_eq {A} (l : loc) (v : A) (s : Store A) :
  read (write l v s) l = v.
Proof. unfold read, write; simpl. by rewrite decide_True. Qed.

Lemma read_write_ne {A} (l l' : loc) (v : A) (s : Store A) :
  l' ≠ l → read (write l v s) l' = read s l'.
Proof. intros Hne. unfold read, write; simpl. by rewrite decide_False. Qed.

(** ** The constructor *)

(** What the constructor leaves behind when the transaction parses. *)
Lemma init_ok tx_arg signed_arg desc_arg prompt_arg w t :
  deserialize (read (txs w) tx_arg) = inr t →
  ∃ d w',
    __init__ tx_arg signed_arg desc_arg prompt_arg w = (inr d, w')
    ∧ oid d = next_oid w
    ∧ tx d = next_loc (txs w)
    ∧ signed d = next_loc (signeds w)
    ∧ wallet d = wallet_of (main_window w)
    ∧ visible d = false
    ∧ timed_out d = false
    ∧ my_qtimer d = truthy (expire_of (store (server w) !! own_hash (server w)))
    ∧ time_left_int d
      = (if truthy (expire_of (store (server w) !! own_hash (server w)))
         then seed_time_left DURATION_INT (clock (server w))
                (default 0%Z
                   (expire_of (store (server w) !! own_hash (server w))))
         else DURATION_INT)
    ∧ dialogs w' = dialogs w
    ∧ next_oid w' = S (next_oid w)
    ∧ main_window w' = main_window w
    ∧ critical_shown w' = critical_shown w
    ∧ store (server w') = store (server w)
    ∧ own_hash (server w') = own_hash (server w)
    ∧ clock (server w') = clock (server w)
    ∧ calls (server w')
      = calls (server w)
        ++ CallLock
           :: (if truthy (expire_of (store (server w) !! own_hash (server w)))
               then [CallGetCurrentTime] else []).
Proof.
  intros Hparse. unfold __init__. cbn [deepcopy with_txs with_signeds
    with_next_oid txs signeds next_oid server main_window].
  change (read _ (next_loc (txs w)))
    with (read (deepcopy tx_arg (txs w)).2 (deepcopy tx_arg (txs w)).1) at 1.
  rewrite read_deepcopy_new, Hparse.
  cbn [server_lock with_server server store own_hash log].
  destruct (truthy _) eqn:Htruthy.
  - eexists _, _. split; [reflexivity|].
    cbn. rewrite <- app_assoc. repeat split.
  - eexists _, _. split; [reflexivity|]. cbn. repeat split.
Qed.

(** What else the constructor leaves behind when the transaction parses. *)
Lemma init_ok_view tx_arg signed_arg desc_arg prompt_arg w t :
  deserialize (read (txs w) tx_arg) = inr t →
  ∃ d w',
    __init__ tx_arg signed_arg desc_arg prompt_arg w = (inr d, w')
    ∧ label_fresh d
    ∧ read (txs w') (tx d) = add_inputs_info (wallet_of (main_window w)) t
    ∧ read (signeds w') (signed d) = read (signeds w) signed_arg
    ∧ (∀ l, l < next_loc (txs w) → read (txs w') l = read (txs w) l)
    ∧ (∀ l, l < next_loc (signeds w) → read (signeds w') l = read (signeds w) l)
    ∧ saved d = false
    ∧ prompt_if_unsaved d = prompt_arg
    ∧ desc d = desc_arg.
Proof.
  intros Hparse. unfold __init__. cbn [deepcopy with_txs with_signeds
    with_next_oid txs signeds next_oid server main_window].
  change (read _ (next_loc (txs w)))
    with (read (deepcopy tx_arg (txs w)).2 (deepcopy tx_arg (txs w)).1) at 1.
  rewrite read_deepcopy_new, Hparse.
  cbn [server_lock with_server server store own_hash log].
  destruct (truthy _) eqn:Htruthy.
  - eexists _, _. split; [reflexivity|].
    unfold label_fresh, read, write. cbn.
    rewrite !decide_True by done.
    repeat split; intros l Hl; rewrite !decide_False by lia; reflexivity.
  - eexists _, _. split; [reflexivity|].
    unfold label_fresh, read, write. cbn.
    rewrite !decide_True by done.
    repeat split; intros l Hl; rewrite !decide_False by lia; reflexivity.
Qed.

(** What the constructor does when the transaction does not parse. *)
Lemma init_raises tx_arg signed_arg desc_arg prompt_arg w msg :
  deserialize (read (txs w) tx_arg) = inl msg →
  ∃ w',
    __init__ tx_arg signed_arg desc_arg prompt_arg w
    = (inl (SerializationError msg), w')
    ∧ dialogs w' = dialogs w
    ∧ server w' = server w
    ∧ main_window w' = main_window w
    ∧ critical_shown w' = critical_shown w
    ∧ next_oid w' = S (next_oid w).
Proof.
  intros Hparse. unfold __init__. cbn [deepcopy with_txs with_signeds
    with_next_oid txs signeds next_oid server main_window].
  change (read _ (next_loc (txs w)))
    with (read (deepcopy tx_arg (txs w)).2 (deepcopy tx_arg (txs w)).1) at 1.
  rewrite read_deepcopy_new, Hparse.
  eexists. split; [reflexivity|]. repeat split.
Qed.

(** ** Seeding the countdown *)

(** C1, amended.  When the constructor finds a lock with a non-zero
    timestamp T at server time N, the countdown starts at D - (N - T) with
    D = [DURATION_INT], and the timer is started.  For every duration D this
    difference is non-negative when the elapsed time N - T is at most D and
    negative when it is more: nothing clamps it at 0. *)
Theorem seeded_countdown_is_plain_difference
    (D : Z) tx_arg signed_arg desc_arg prompt_arg w t r :
  deserialize (read (txs w) tx_arg) = inr t →
  store (server w) !! own_hash (server w) = Some r →
  timestamp r ≠ 0%Z →
  let N := clock (server w) in
  let T := timestamp r in
  seed_time_left D N T = (D - (N - T))%Z
  ∧ ((N - T ≤ D)%Z → (0 ≤ seed_time_left D N T)%Z)
  ∧ ((D < N - T)%Z → (seed_time_left D N T < 0)%Z)
  ∧ ∃ d w',
      __init__ tx_arg signed_arg desc_arg prompt_arg w = (inr d, w')
      ∧ time_left_int d = seed_time_left DURATION_INT N T
      ∧ my_qtimer d = true.
Proof.
  intros Hparse Hlock Hts N T.
  split; [reflexivity|].
  split; [unfold seed_time_left; lia|].
  split; [unfold seed_time_left; lia|].
  destruct (init_ok tx_arg signed_arg desc_arg prompt_arg w t Hparse)
    as (d & w' & Hinit & _ & _ & _ & _ & _ & _ & Htimer & Hleft & _).
  rewrite Hlock in Htimer, Hleft. cbn [expire_of truthy default] in Htimer, Hleft.
  assert (Hnz : (timestamp r =? 0)%Z = false) by (apply Z.eqb_neq; exact Hts).
  rewrite Hnz in Htimer, Hleft. cbn [negb] in Htimer, Hleft.
  exists d, w'. auto.
Qed.

(** ** Broadcasting *)

(** C2.  On a multisig wallet [do_broadcast] asks the server for the wallet
    hash and deletes the record under it, whether the broadcast returned or
    raised; an exception of the broadcast reaches the caller only after
    that. *)
Theorem broadcast_always_deletes_lock o d w :
  is_multisig (wallet d) = true →
  let r := do_broadcast o d w in
  calls (server r.2)
  = calls (server w) ++ [CallWalletHash; CallDelete (own_hash (server w))]
  ∧ store (server r.2) !! own_hash (server w) = None
  ∧ r.1.1 = match o with
            | BroadcastReturns => None
            | BroadcastRaises e => Some e
            end.
Proof.
  intros Hmulti. unfold do_broadcast. rewrite Hmulti.
  destruct o; cbn; rewrite <- app_assoc, lookup_delete_eq; auto.
Qed.

(** ** A transaction that does not parse *)

(** C6.  When [deserialize] raises, the constructor raises
    [SerializationError] with the same text; [show_transaction_timeout]
    catches it, reports it through [show_critical], returns no dialog, adds
    nothing to [dialogs] and has made no call on the server. *)
Theorem malformed_transaction_opens_nothing
    tx_arg signed_arg desc_arg prompt_arg w msg :
  deserialize (read (txs w) tx_arg) = inl msg →
  (__init__ tx_arg signed_arg desc_arg prompt_arg w).1
  = inl (SerializationError msg)
  ∧ let r := show_transaction_timeout tx_arg signed_arg desc_arg prompt_arg w in
    r.1 = inr None
    ∧ dialogs r.2 = dialogs w
    ∧ server r.2 = server w
    ∧ critical_shown r.2
      = critical_shown w
        ++ [String.append deserialize_failure_text (String.append newline msg)].
Proof.
  intros Hparse.
  destruct (init_raises tx_arg signed_arg desc_arg prompt_arg w msg Hparse)
    as (w' & Hinit & Hdialogs & Hserver & _ & Hshown & _).
  unfold show_transaction_timeout. rewrite Hinit. cbn.
  rewrite Hdialogs, Hserver, Hshown. auto.
Qed.

(** ** The sign button *)

(** C7, amended.  [update] enables the sign button exactly when the
    transaction is incomplete and the wallet can sign it or external
    keypairs are at hand.  Whether the dialog has timed out or is hidden
    plays no part. *)
Theorem can_sign_iff_incomplete_and_signable d w :
  (sign_button (update d w) = true
   ↔ is_complete (read (txs w) (tx d)) = false
     ∧ (can_sign (wallet d) (read (txs w) (tx d)) = true
        ∨ tx_external_keypairs (main_window w) ≠ ∅))
  ∧ ∀ expired shown,
      sign_button (update (set_timed_out expired (set_visible shown d)) w)
      = sign_button (update d w).
Proof.
  split; [|reflexivity].
  rewrite sign_button_update, andb_true_iff, orb_true_iff, negb_true_iff.
  unfold dict_bool. rewrite negb_true_iff, bool_decide_eq_false. tauto.
Qed.

(** ** Closing *)

Lemma list_remove_Some_count (x : nat) (l l' : list nat) :
  list_remove x l = Some l' →
  count_occ Nat.eq_dec l x = S (count_occ Nat.eq_dec l' x).
Proof.
  revert l'. induction l as [|y l IH]; intros l' Hrem; [discriminate|].
  cbn [list_remove] in Hrem. destruct (decide (x = y)) as [->|Hne].
  - injection Hrem as <-. cbn [count_occ].
    destruct (Nat.eq_dec y y); [reflexivity | congruence].
  - destruct (list_remove x l) as [r|] eqn:Hr; [|discriminate].
    injection Hrem as <-. cbn [count_occ].
    destruct (Nat.eq_dec y x); [congruence|]. by apply IH.
Qed.

Lemma list_remove_None_count (x : nat) (l : list nat) :
  list_remove x l = None ↔ count_occ Nat.eq_dec l x = 0.
Proof.
  induction l as [|y l IH]; [done|].
  cbn [list_remove count_occ].
  destruct (decide (x = y)) as [->|Hne].
  - destruct (Nat.eq_dec y y); [|congruence]. split; discriminate.
  - destruct (Nat.eq_dec y x); [congruence|].
    destruct (list_remove x l); rewrite <- IH; split; congruence.
Qed.

Lemma NoDup_count_le_1 (x : nat) (l : list nat) :
  NoDup l → count_occ Nat.eq_dec l x ≤ 1.
Proof.
  intros Hnd. apply NoDup_ListNoDup in Hnd.
  by apply (proj1 (List.NoDup_count_occ Nat.eq_dec l)).
Qed.

Lemma count_occ_0_not_elem (x : nat) (l : list nat) :
  count_occ Nat.eq_dec l x = 0 ↔ x ∉ l.
Proof.
  rewrite <- (List.count_occ_not_In Nat.eq_dec). by rewrite list_elem_of_In.
Qed.

Lemma del_lock_count_del_lock (sv : Server) :
  del_lock_count (server_del_lock sv) = S (del_lock_count sv).
Proof.
  unfold del_lock_count, server_del_lock; cbn [calls].
  rewrite count_occ_app. cbn. lia.
Qed.

Lemma del_lock_count_delete (k : string) (sv : Server) :
  del_lock_count (server_delete k sv) = del_lock_count sv.
Proof.
  unfold del_lock_count, server_delete; cbn [calls].
  rewrite count_occ_app. cbn. lia.
Qed.

Lemma del_lock_count_log_read (c : ServerCall) (sv : Server) :
  is_read c = true → del_lock_count (log c sv) = del_lock_count sv.
Proof.
  intros Hread. unfold del_lock_count, log; cbn [calls].
  rewrite count_occ_app. destruct c; try discriminate; cbn; lia.
Qed.

Lemma closeEvent_budget d d' w :
  oid d' = oid d →
  release_budget d' (closeEvent d w) ≤ release_budget d' w.
Proof.
  intros Hoid. unfold release_budget, closeEvent. rewrite Hoid.
  destruct (list_remove (oid d) (dialogs w)) as [l|] eqn:Hrem; [|done].
  apply list_remove_Some_count in Hrem. rewrite Hrem.
  unfold release_lock.
  destruct (is_multisig (wallet d)); cbn [with_server with_dialogs server dialogs].
  - rewrite del_lock_count_del_lock. lia.
  - lia.
Qed.

Lemma closeEvent_again d d' w :
  oid d' = oid d →
  NoDup (dialogs w) →
  closeEvent d' (closeEvent d w) = closeEvent d w.
Proof.
  intros Hoid Hnd. unfold closeEvent at 2 3.
  destruct (list_remove (oid d) (dialogs w)) as [l|] eqn:Hrem.
  - assert (Hgone : list_remove (oid d) l = None).
    { apply list_remove_None_count.
      pose proof (NoDup_count_le_1 (oid d) _ Hnd) as Hle.
      apply list_remove_Some_count in Hrem. lia. }
    unfold closeEvent, release_lock. rewrite Hoid.
    destruct (is_multisig (wallet d)); cbn; by rewrite Hgone.
  - unfold closeEvent. by rewrite Hoid, Hrem.
Qed.

Lemma step_oid e d w : oid (step e d w).1 = oid d.
Proof.
  destruct e as [| | |o|t success|ok|f]; cbn [step].
  - destruct (my_qtimer d); [|reflexivity].
    unfold timer_timeout. cbn. by destruct (_ && _).
  - reflexivity.
  - reflexivity.
  - unfold do_broadcast. by destruct o.
  - unfold sign, sign_done. cbn. by destruct (is_complete _).
  - unfold save. by destruct ok.
  - unfold export. by destruct (bool_decide _).
Qed.

Lemma step_budget e d w :
  release_budget (step e d w).1 (step e d w).2 ≤ release_budget d w.
Proof.
  unfold release_budget. rewrite step_oid.
  destruct e as [| | |o|t success|ok|f]; cbn [step].
  - destruct (my_qtimer d); [|cbn; lia].
    unfold timer_timeout. cbn.
    destruct (_ && _); cbn; [|lia].
    apply (closeEvent_budget _ d). reflexivity.
  - by apply (closeEvent_budget d d).
  - by apply (closeEvent_budget d d).
  - unfold do_broadcast.
    destruct (is_multisig (wallet d)), o;
      cbn [snd with_server server dialogs server_wallet_hash];
      rewrite ?del_lock_count_delete, ?del_lock_count_log_read by done; lia.
  - cbn. lia.
  - cbn. lia.
  - cbn. lia.
Qed.

Lemma run_oid es d w : oid (run es d w).1 = oid d.
Proof.
  revert d w. induction es as [|e es IH]; intros d w; [reflexivity|].
  cbn [run]. pose proof (step_oid e d w) as Hoid.
  destruct (step e d w) as [d1 w1]. rewrite IH. exact Hoid.
Qed.

Lemma run_budget es d w :
  release_budget (run es d w).1 (run es d w).2 ≤ release_budget d w.
Proof.
  revert d w. induction es as [|e es IH]; intros d w; [reflexivity|].
  cbn [run]. pose proof (step_budget e d w) as Hstep.
  destruct (step e d w) as [d1 w1]. etrans; [apply IH | exact Hstep].
Qed.

(** C3.  On a multisig wallet the first [close] executes [del server.lock]
    once if the dialog is in [dialogs] and not at all otherwise; every
    further [close] changes neither the dialog nor the world; and whatever
    the events, closes among them, [del server.lock] is executed at most
    once. *)
Theorem close_releases_lock_at_most_once d w n :
  NoDup (dialogs w) →
  is_multisig (wallet d) = true →
  let first := close d w in
  calls (server first.2)
  = calls (server w)
    ++ (if bool_decide (oid d ∈ dialogs w) then [CallDelLock] else [])
  ∧ run (repeat Close n) first.1 first.2 = first
  ∧ ∀ es, del_lock_count (server (run es d w).2) ≤ S (del_lock_count (server w)).
Proof.
  intros Hnd Hmulti first. split; [|split].
  - subst first. cbn [close snd]. unfold closeEvent.
    destruct (list_remove (oid d) (dialogs w)) as [l|] eqn:Hrem.
    + rewrite bool_decide_eq_true_2.
      * unfold release_lock. rewrite Hmulti. reflexivity.
      * apply dec_stable. intros Hnot.
        apply count_occ_0_not_elem, list_remove_None_count in Hnot. congruence.
    + rewrite bool_decide_eq_false_2; [by rewrite app_nil_r|].
      by apply count_occ_0_not_elem, list_remove_None_count.
  - subst first. induction n as [|n IH]; [reflexivity|].
    cbn [repeat run step close fst snd].
    rewrite (closeEvent_again d (set_visible false d) w eq_refl Hnd). exact IH.
  - intros es. pose proof (run_budget es d w) as Hrun.
    pose proof (NoDup_count_le_1 (oid d) _ Hnd) as Hle.
    unfold release_budget in Hrun. lia.
Qed.

(** ** Wallets that are not multisig *)

Lemma step_wallet e d w : wallet (step e d w).1 = wallet d.
Proof.
  destruct e as [| | |o|t success|ok|f]; cbn [step].
  - destruct (my_qtimer d); [|reflexivity].
    unfold timer_timeout. cbn. by destruct (_ && _).
  - reflexivity.
  - reflexivity.
  - unfold do_broadcast. by destruct o.
  - unfold sign, sign_done. cbn. by destruct (is_complete _).
  - unfold save. by destruct ok.
  - unfold export. by destruct (bool_decide _).
Qed.

Lemma closeEvent_server_single d w :
  is_multisig (wallet d) = false → server (closeEvent d w) = server w.
Proof.
  intros Hsingle. unfold closeEvent, release_lock. rewrite Hsingle.
  by destruct (list_remove _ _).
Qed.

Lemma step_server_single e d w :
  is_multisig (wallet d) = false → server (step e d w).2 = server w.
Proof.
  intros Hsingle.
  destruct e as [| | |o|t success|ok|f]; cbn [step]; try reflexivity.
  - destruct (my_qtimer d); [|reflexivity].
    unfold timer_timeout. cbn.
    destruct (_ && _); cbn; [|reflexivity].
    by apply (closeEvent_server_single (set_timed_out true
                (set_time_left_int (time_left_int d - 1)%Z d))).
  - by apply closeEvent_server_single.
  - by apply closeEvent_server_single.
  - unfold do_broadcast. rewrite Hsingle. by destruct o.
Qed.

Lemma run_server_single es d w :
  is_multisig (wallet d) = false → server (run es d w).2 = server w.
Proof.
  revert d w. induction es as [|e es IH]; intros d w Hsingle; [reflexivity|].
  cbn [run].
  pose proof (step_server_single e d w Hsingle) as Hstep.
  pose proof (step_wallet e d w) as Hwallet.
  destruct (step e d w) as [d1 w1]. cbn [fst snd] in *.
  rewrite IH; [exact Hstep | by rewrite Hwallet].
Qed.

(** C4, amended.  A dialog on a wallet that is not multisig never deletes
    or creates a lock record: opening it leaves the server's records as they
    were, and no later event makes any call on the server.  It does read:
    the constructor evaluates [server.lock] once for every wallet class, and
    [server.get_current_time()] once more when it found a lock. *)
Theorem single_sig_session_only_reads_lock
    tx_arg signed_arg desc_arg prompt_arg w :
  is_multisig (wallet_of (main_window w)) = false →
  let r := show_transaction_timeout tx_arg signed_arg desc_arg prompt_arg w in
  store (server r.2) = store (server w)
  ∧ calls (server r.2)
    = calls (server w)
      ++ match deserialize (read (txs w) tx_arg) with
         | inl _ => []
         | inr _ =>
             CallLock
             :: (if truthy (expire_of (store (server w) !! own_hash (server w)))
                 then [CallGetCurrentTime] else [])
         end
  ∧ ∀ d es, r.1 = inr (Some d) → server (run es d r.2).2 = server r.2.
Proof.
  intros Hsingle r. subst r. unfold show_transaction_timeout.
  destruct (deserialize (read (txs w) tx_arg)) as [msg|t] eqn:Hparse.
  - destruct (init_raises tx_arg signed_arg desc_arg prompt_arg w msg Hparse)
      as (w' & Hinit & _ & Hserver & _).
    rewrite Hinit. cbn. rewrite Hserver, app_nil_r.
    repeat split. intros d es Hd. discriminate.
  - destruct (init_ok tx_arg signed_arg desc_arg prompt_arg w t Hparse)
      as (d & w' & Hinit & _ & _ & _ & Hwallet & _ & _ & _ & _ & _ & _ & _ & _
          & Hstore & _ & _ & Hcalls).
    rewrite Hinit. cbn. repeat split; [exact Hstore | exact Hcalls |].
    intros d' es Hd. injection Hd as <-.
    rewrite run_server_single; [reflexivity|].
    cbn. by rewrite Hwallet.
Qed.

(** ** The timer *)

Lemma release_lock_dialogs d w : dialogs (release_lock d w) = dialogs w.
Proof. unfold release_lock. by destruct (is_multisig _). Qed.

Lemma closeEvent_not_elem d w :
  NoDup (dialogs w) → oid d ∉ dialogs (closeEvent d w).
Proof.
  intros Hnd. apply count_occ_0_not_elem. unfold closeEvent.
  pose proof (NoDup_count_le_1 (oid d) _ Hnd) as Hle.
  destruct (list_remove (oid d) (dialogs w)) as [l|] eqn:Hrem.
  - rewrite release_lock_dialogs. cbn.
    apply list_remove_Some_count in Hrem. lia.
  - by apply list_remove_None_count.
Qed.

(** The tick that reaches zero on a visible dialog. *)
Lemma timer_timeout_expiring d w :
  time_left_int d = 1%Z → visible d = true →
  timer_timeout d w
  = (update (set_visible false (set_timed_out true (set_time_left_int 0 d)))
            (closeEvent d w),
     closeEvent d w).
Proof.
  intros Hone Hvis. unfold timer_timeout.
  cbn [set_time_left_int time_left_int visible]. rewrite Hone, Hvis.
  reflexivity.
Qed.

(** A tick of a hidden dialog. *)
Lemma timer_timeout_hidden d w :
  visible d = false →
  timer_timeout d w
  = (update (set_time_left_int (time_left_int d - 1)%Z d) w, w).
Proof.
  intros Hhidden. unfold timer_timeout.
  cbn [set_time_left_int time_left_int visible].
  by rewrite Hhidden, andb_false_r.
Qed.

(** C5, amended.  While the dialog is visible, the tick that takes the
    countdown from 1 to 0 sets [timed_out] and closes the dialog in the same
    step: it is hidden, taken out of [dialogs], and [release_lock] has run.
    A tick of a closed dialog expires nothing and leaves the world alone,
    but it still takes one off the countdown. *)
Theorem tick_expires_visible_dialog_only d w :
  my_qtimer d = true →
  NoDup (dialogs w) →
  (time_left_int d = 1%Z → visible d = true →
   let r := step Tick d w in
   time_left_int r.1 = 0%Z ∧ Expired r.1 ∧ Closed r.1 r.2
   ∧ r.2 = closeEvent d w)
  ∧ (Closed d w →
     let r := step Tick d w in
     r.2 = w ∧ Closed r.1 r.2 ∧ timed_out r.1 = timed_out d
     ∧ time_left_int r.1 = (time_left_int d - 1)%Z).
Proof.
  intros Htimer Hnd. split.
  - intros Hone Hvis r. subst r. cbn [step]. rewrite Htimer.
    rewrite (timer_timeout_expiring d w Hone Hvis). cbn [fst snd].
    repeat split. cbn. by apply closeEvent_not_elem.
  - intros [Hhidden Hgone] r. subst r. cbn [step]. rewrite Htimer.
    rewrite (timer_timeout_hidden d w Hhidden). cbn [fst snd].
    repeat split; assumption.
Qed.

(** ** Signing *)

(** C8, amended.  When a sign operation completes on a transaction that
    has become complete, the callback turns the save button on, sets
    [prompt_if_unsaved], clears [saved], and its [update] turns the sign
    button off, sets the broadcast button from the wallet's view of the
    signed transaction and writes the countdown label anew from the
    countdown, the same label when it was up to date.  Every other field of
    the dialog is as it was.  Of the world the whole [sign] changes one
    thing, the transaction behind [self.tx], now the signed one: every
    other transaction, every [signed] object, [dialogs], the parent window,
    the messages shown and the server are as before, so no call is made on
    the server and the lock record is the one that was there. *)
Theorem sign_completion_keeps_lock signed_tx success d w :
  is_complete signed_tx = true →
  let r := sign signed_tx success d w in
  (∀ d0 w0,
     read (txs w0) (tx d0) = signed_tx →
     sign_done success d0 w0
     = mkDialog (oid d0) (tx d0) (signed d0) (wallet d0) true false (desc d0)
         (time_left_int d0) (my_qtimer d0) (timed_out d0) (visible d0)
         false (can_broadcast (wallet d0) signed_tx) true
         ((time_left_int d0 / 60)%Z, (time_left_int d0 mod 60)%Z))
  ∧ r.1
    = mkDialog (oid d) (tx d) (signed d) (wallet d) true false (desc d)
        (time_left_int d) (my_qtimer d) (timed_out d) (visible d)
        false (can_broadcast (wallet d) signed_tx) true
        ((time_left_int d / 60)%Z, (time_left_int d mod 60)%Z)
  ∧ (label_fresh d → time_out_label r.1 = time_out_label d)
  ∧ (read (txs r.2) (tx d) = signed_tx
     ∧ (∀ l, l ≠ tx d → read (txs r.2) l = read (txs w) l)
     ∧ next_loc (txs r.2) = next_loc (txs w)
     ∧ signeds r.2 = signeds w
     ∧ dialogs r.2 = dialogs w
     ∧ next_oid r.2 = next_oid w
     ∧ main_window r.2 = main_window w
     ∧ critical_shown r.2 = critical_shown w)
  ∧ (server r.2 = server w
     ∧ store (server r.2) !! own_hash (server r.2)
       = store (server w) !! own_hash (server w)).
Proof.
  intros Hcomplete r.
  assert (Hdone : ∀ d0 w0,
            read (txs w0) (tx d0) = signed_tx →
            sign_done success d0 w0
            = mkDialog (oid d0) (tx d0) (signed d0) (wallet d0) true false
                (desc d0) (time_left_int d0) (my_qtimer d0) (timed_out d0)
                (visible d0) false (can_broadcast (wallet d0) signed_tx) true
                ((time_left_int d0 / 60)%Z, (time_left_int d0 mod 60)%Z)).
  { intros d0 w0 Hread. unfold sign_done, update. rewrite Hread, Hcomplete.
    cbn. rewrite Hread, Hcomplete. reflexivity. }
  assert (Hread : read (txs r.2) (tx d) = signed_tx).
  { subst r. unfold sign. cbn [snd with_txs txs set_sign_button tx].
    apply read_write_eq. }
  split; [exact Hdone|]. split; [|split; [|split]].
  - subst r. unfold sign. cbn [fst].
    rewrite Hdone; [reflexivity|]. exact Hread.
  - intros Hfresh. subst r. unfold sign. cbn [fst].
    rewrite Hdone by exact Hread. cbn. by rewrite Hfresh.
  - split; [exact Hread|]. subst r. unfold sign.
    cbn [snd with_txs txs set_sign_button tx signeds dialogs next_oid
         main_window critical_shown].
    split; [|done]. intros l Hl. by apply read_write_ne.
  - subst r. unfold sign. cbn. done.
Qed.

(** ** A countdown that starts at or below zero *)

Lemma step_stale e d w :
  my_qtimer d = true → (time_left_int d ≤ 0)%Z →
  let r := step e d w in
  my_qtimer r.1 = true
  ∧ time_left_int r.1
    = (time_left_int d - match e with Tick => 1 | _ => 0 end)%Z
  ∧ timed_out r.1 = timed_out d
  ∧ match e with
    | Tick => visible r.1 = visible d ∧ r.2 = w
    | _ => True
    end.
Proof.
  intros Htimer Hstale r. subst r.
  destruct e as [| | |o|t success|ok|f]; cbn [step].
  - rewrite Htimer. unfold timer_timeout.
    cbn [set_time_left_int time_left_int visible].
    assert (Hnz : (time_left_int d - 1 =? 0)%Z = false) by (apply Z.eqb_neq; lia).
    rewrite Hnz. cbn. repeat split; assumption.
  - cbn. rewrite Z.sub_0_r. repeat split; assumption.
  - cbn. rewrite Z.sub_0_r. repeat split; assumption.
  - unfold do_broadcast. destruct o; cbn; rewrite Z.sub_0_r; repeat split; assumption.
  - unfold sign, sign_done. cbn.
    destruct (is_complete _); cbn; rewrite Z.sub_0_r; repeat split; assumption.
  - unfold save. destruct ok; cbn; rewrite Z.sub_0_r; repeat split; assumption.
  - unfold export. destruct (bool_decide _); cbn; rewrite Z.sub_0_r;
      repeat split; assumption.
Qed.

Lemma run_stale es d w :
  my_qtimer d = true → (time_left_int d ≤ 0)%Z →
  time_left_int (run es d w).1 = (time_left_int d - Z.of_nat (ticks es))%Z
  ∧ timed_out (run es d w).1 = timed_out d.
Proof.
  revert d w. induction es as [|e es IH]; intros d w Htimer Hstale.
  - cbn. split; [lia | reflexivity].
  - cbn [run].
    destruct (step_stale e d w Htimer Hstale) as (Ht & Hleft & Hout & _).
    destruct (step e d w) as [d1 w1]. cbn [fst snd] in *.
    destruct (IH d1 w1 Ht) as [IHleft IHout].
    { rewrite Hleft. destruct e; lia. }
    rewrite IHleft, IHout, Hleft. split; [|exact Hout].
    destruct e; cbn [ticks]; lia.
Qed.

Lemma run_ticks_stale n d w :
  my_qtimer d = true → (time_left_int d ≤ 0)%Z →
  time_left_int (run (repeat Tick n) d w).1 = (time_left_int d - Z.of_nat n)%Z
  ∧ timed_out (run (repeat Tick n) d w).1 = timed_out d
  ∧ visible (run (repeat Tick n) d w).1 = visible d
  ∧ (run (repeat Tick n) d w).2 = w.
Proof.
  revert d. induction n as [|n IH]; intros d Htimer Hstale.
  - cbn. repeat split. lia.
  - cbn [repeat run].
    destruct (step_stale Tick d w Htimer Hstale)
      as (Ht & Hleft & Hout & Hvis & Hw).
    destruct (step Tick d w) as [d1 w1]. cbn [fst snd] in *. subst w1.
    destruct (IH d1 Ht) as (IHleft & IHout & IHvis & IHw); [lia|].
    rewrite IHleft, IHout, IHvis, IHw, Hleft, Hout, Hvis.
    repeat split. lia.
Qed.

(** C10.  When the lock the constructor finds is at least [DURATION_INT]
    old, the dialog opens with a running timer and a countdown at or below
    zero.  From then on every tick takes one off the countdown and nothing
    else happens: after n ticks the countdown is n lower, the dialog is
    still visible and not timed out, and [dialogs] and the server are
    untouched.  Whatever other events come between the ticks, the expiry
    flag is never set. *)
Theorem stale_lock_never_expires tx_arg signed_arg desc_arg prompt_arg w t r :
  deserialize (read (txs w) tx_arg) = inr t →
  store (server w) !! own_hash (server w) = Some r →
  timestamp r ≠ 0%Z →
  (DURATION_INT ≤ clock (server w) - timestamp r)%Z →
  ∃ d w',
    show_transaction_timeout tx_arg signed_arg desc_arg prompt_arg w
    = (inr (Some d), w')
    ∧ my_qtimer d = true
    ∧ (time_left_int d ≤ 0)%Z
    ∧ (∀ n,
         time_left_int (run (repeat Tick n) d w').1
         = (time_left_int d - Z.of_nat n)%Z
         ∧ timed_out (run (repeat Tick n) d w').1 = false
         ∧ visible (run (repeat Tick n) d w').1 = true
         ∧ (run (repeat Tick n) d w').2 = w')
    ∧ (∀ es,
         time_left_int (run es d w').1
         = (time_left_int d - Z.of_nat (ticks es))%Z
         ∧ timed_out (run es d w').1 = false).
Proof.
  intros Hparse Hlock Hts Hold.
  destruct (init_ok tx_arg signed_arg desc_arg prompt_arg w t Hparse)
    as (d & w' & Hinit & _ & _ & _ & _ & _ & Hout & Htimer & Hleft & _).
  rewrite Hlock in Htimer, Hleft. cbn [expire_of truthy default] in Htimer, Hleft.
  assert (Hnz : (timestamp r =? 0)%Z = false) by (apply Z.eqb_neq; exact Hts).
  rewrite Hnz in Htimer, Hleft. cbn [negb] in Htimer, Hleft.
  unfold show_transaction_timeout. rewrite Hinit.
  eexists _, _. split; [reflexivity|].
  assert (Hstale : (time_left_int (show d) ≤ 0)%Z).
  { cbn. rewrite Hleft. unfold seed_time_left, id. lia. }
  split; [exact Htimer|]. split; [exact Hstale|]. split.
  - intros n.
    destruct (run_ticks_stale n (show d) (with_dialogs (dialogs w' ++ [oid d]) w')
                Htimer Hstale) as (H1 & H2 & H3 & H4).
    rewrite H1, H2, H3, H4. cbn. rewrite Hout. repeat split.
  - intros es.
    destruct (run_stale es (show d) (with_dialogs (dialogs w' ++ [oid d]) w')
                Htimer Hstale) as (H1 & H2).
    rewrite H1, H2. cbn. rewrite Hout. repeat split.
Qed.

(** ** The copies taken by the constructor *)

Lemma step_tx e d w :
  tx (step e d w).1 = tx d ∧ signed (step e d w).1 = signed d.
Proof.
  destruct e as [| | |o|t success|ok|f]; cbn [step].
  - destruct (my_qtimer d); [|done].
    unfold timer_timeout. cbn. by destruct (_ && _).
  - done.
  - done.
  - unfold do_broadcast. by destruct o.
  - unfold sign, sign_done. cbn. by destruct (is_complete _).
  - unfold save. by destruct ok.
  - unfold export. by destruct (bool_decide _).
Qed.

Lemma update_same d d' w1 w2 :
  tx d' = tx d → same_for d w1 w2 → update d' w1 = update d' w2.
Proof.
  intros Htx (Hcell & _ & _ & _ & _ & Hmw & _).
  unfold update. by rewrite Htx, Hcell, Hmw.
Qed.

Lemma closeEvent_same d d' w1 w2 :
  same_for d w1 w2 → same_for d (closeEvent d' w1) (closeEvent d' w2).
Proof.
  intros (Hcell & Hsig & Hdl & Hoid & Hsv & Hmw & Hcs).
  unfold closeEvent, release_lock. rewrite Hdl.
  destruct (list_remove (oid d') (dialogs w2)); [|by repeat split].
  destruct (is_multisig (wallet d')); cbn; rewrite ?Hsv; by repeat split.
Qed.

(** A step sees only what [same_for] compares. *)
Lemma step_same e d w1 w2 :
  same_for d w1 w2 →
  (step e d w1).1 = (step e d w2).1
  ∧ same_for d (step e d w1).2 (step e d w2).2.
Proof.
  intros Hsame.
  destruct e as [| | |o|t success|ok|f]; cbn [step].
  - destruct (my_qtimer d); [|done]. unfold timer_timeout.
    destruct (_ && _); cbn [close fst snd].
    + split; [|by apply closeEvent_same].
      apply (update_same d); [done | by apply closeEvent_same].
    + split; [|done]. by apply (update_same d).
  - cbn. split; [done | by apply closeEvent_same].
  - cbn. split; [done | by apply closeEvent_same].
  - assert (Hw : same_for d
        (if is_multisig (wallet d)
         then let '(wallet_hash, sv) := server_wallet_hash (server w1) in
              with_server (server_delete wallet_hash sv) w1
         else w1)
        (if is_multisig (wallet d)
         then let '(wallet_hash, sv) := server_wallet_hash (server w2) in
              with_server (server_delete wallet_hash sv) w2
         else w2)).
    { destruct (is_multisig (wallet d)); [|done].
      destruct Hsame as (Hcell & Hsig & Hdl & Hoid & Hsv & Hmw & Hcs).
      cbn. rewrite Hsv. by repeat split. }
    unfold do_broadcast. destruct o; cbn [fst snd].
    + split; [|done]. by apply (update_same d).
    + done.
  - assert (Hw : same_for d (with_txs (write (tx d) t (txs w1)) w1)
                          (with_txs (write (tx d) t (txs w2)) w2)).
    { destruct Hsame as (Hcell & Hsig & Hdl & Hoid & Hsv & Hmw & Hcs).
      repeat split; try done. cbn [with_txs txs]. by rewrite !read_write_eq. }
    unfold sign, sign_done. cbn [fst snd set_sign_button tx with_txs txs].
    split; [|done]. rewrite !read_write_eq.
    by apply (update_same d); [destruct (is_complete t)|].
  - done.
  - done.
Qed.

Lemma foreign_to_same d d' (a : @Activity Transaction Signed) :
  tx d' = tx d → signed d' = signed d → foreign_to d a → foreign_to d' a.
Proof. intros Htx Hsig. destruct a; cbn; congruence. Qed.

Lemma same_for_same d d' w1 w2 :
  tx d' = tx d → signed d' = signed d → same_for d w1 w2 → same_for d' w1 w2.
Proof. intros Htx Hsig. unfold same_for. by rewrite Htx, Hsig. Qed.

(** Mutations of other objects do not reach the dialog. *)
Lemma run_all_same acts d w1 w2 :
  Forall (foreign_to d) acts →
  same_for d w1 w2 →
  (run_all acts d w1).1 = (run (ui_only acts) d w2).1
  ∧ same_for d (run_all acts d w1).2 (run (ui_only acts) d w2).2.
Proof.
  revert d w1 w2. induction acts as [|a acts IH]; intros d w1 w2 Hacts Hsame.
  - done.
  - apply Forall_cons in Hacts as [Ha Hacts].
    destruct a as [e|l v|l v]; cbn [run_all act ui_only run].
    + destruct (step_same e d w1 w2 Hsame) as [Hd Hw].
      destruct (step_tx e d w1) as [Htx Hsig].
      destruct (step e d w1) as [d1 w1'], (step e d w2) as [d2 w2'].
      cbn [fst snd] in *. subst d2.
      destruct (IH d1 w1' w2') as [IHd IHw].
      * eapply Forall_impl; [exact Hacts|]. intros a. by apply foreign_to_same.
      * by apply (same_for_same d).
      * split; [exact IHd|]. apply (same_for_same d1); [done..|exact IHw].
    + apply IH; [exact Hacts|].
      destruct Hsame as (Hcell & Hsig & Hdl & Hoid & Hsv & Hmw & Hcs).
      repeat split; try done.
      cbn [with_txs with_signeds txs signeds]. rewrite read_write_ne; [done|].
      cbn in Ha. congruence.
    + apply IH; [exact Hacts|].
      destruct Hsame as (Hcell & Hsig & Hdl & Hoid & Hsv & Hmw & Hcs).
      repeat split; try done.
      cbn [with_txs with_signeds txs signeds]. rewrite read_write_ne; [done|].
      cbn in Ha. congruence.
Qed.

(** C9.  The dialog holds copies of the transaction and of [signed] that
    are new objects: what is behind [self.tx] is the content of the
    transaction handed in, parsed and with the wallet's input information,
    what is behind [self.signed] is the content of the [signed] handed in,
    and the originals are as they were.  Whatever is done afterwards to
    objects that existed when the dialog was opened, the originals among
    them, the dialog goes through the same states and leaves the same
    [dialogs], server, parent window and copies as in the run without
    those mutations. *)
Theorem deepcopy_shields_dialog
    tx_arg signed_arg desc_arg prompt_arg w d w' acts :
  tx_arg < next_loc (txs w) →
  signed_arg < next_loc (signeds w) →
  show_transaction_timeout tx_arg signed_arg desc_arg prompt_arg w
  = (inr (Some d), w') →
  Forall (older_than w) acts →
  (tx d ≠ tx_arg ∧ signed d ≠ signed_arg)
  ∧ (∃ t, deserialize (read (txs w) tx_arg) = inr t
          ∧ read (txs w') (tx d)
            = add_inputs_info (wallet_of (main_window w)) t)
  ∧ read (signeds w') (signed d) = read (signeds w) signed_arg
  ∧ (read (txs w') tx_arg = read (txs w) tx_arg
     ∧ read (signeds w') signed_arg = read (signeds w) signed_arg)
  ∧ (run_all acts d w').1 = (run (ui_only acts) d w').1
  ∧ same_for d (run_all acts d w').2 (run (ui_only acts) d w').2.
Proof.
  intros Htx_old Hsig_old Hshow Hacts.
  unfold show_transaction_timeout in Hshow.
  destruct (deserialize (read (txs w) tx_arg)) as [msg|t] eqn:Hparse.
  - destruct (init_raises tx_arg signed_arg desc_arg prompt_arg w msg Hparse)
      as (w0 & Hinit & _).
    rewrite Hinit in Hshow. discriminate.
  - destruct (init_ok tx_arg signed_arg desc_arg prompt_arg w t Hparse)
      as (d0 & w0 & Hinit & _ & Htx & Hsig & _).
    destruct (init_ok_view tx_arg signed_arg desc_arg prompt_arg w t Hparse)
      as (d0' & w0' & Hinit' & _ & Hcopy & Hcopy_signed & Htxs & Hsigs & _).
    rewrite Hinit in Hinit'. injection Hinit' as <- <-.
    rewrite Hinit in Hshow. injection Hshow as <- <-.
    cbn [show set_visible tx signed with_dialogs txs signeds].
    split; [split; lia|].
    split; [exists t; split; [reflexivity | exact Hcopy]|].
    split; [exact Hcopy_signed|].
    split; [split; [by apply Htxs | by apply Hsigs]|].
    apply run_all_same; [|done].
    eapply Forall_impl; [exact Hacts|].
    intros [e|l v|l v]; cbn; lia.
Qed.

(** ** The list of open dialogs *)

Lemma list_remove_elem (x : nat) (l l' : list nat) :
  list_remove x l = Some l' → ∀ i, i ∈ l' → i ∈ l.
Proof.
  revert l'. induction l as [|y l IH]; intros l' Hrem i Hi; [discriminate|].
  cbn [list_remove] in Hrem. destruct (decide (x = y)) as [->|Hne].
  - injection Hrem as <-. apply elem_of_cons. by right.
  - destruct (list_remove x l) as [r|] eqn:Hr; [|discriminate].
    injection Hrem as <-. apply elem_of_cons in Hi as [->|Hi].
    + apply elem_of_cons. by left.
    + apply elem_of_cons. right. by apply (IH r).
Qed.

Lemma list_remove_NoDup (x : nat) (l l' : list nat) :
  list_remove x l = Some l' → NoDup l → NoDup l'.
Proof.
  revert l'. induction l as [|y l IH]; intros l' Hrem Hnd; [discriminate|].
  cbn [list_remove] in Hrem. apply NoDup_cons in Hnd as [Hy Hnd].
  destruct (decide (x = y)) as [->|Hne].
  - by injection Hrem as <-.
  - destruct (list_remove x l) as [r|] eqn:Hr; [|discriminate].
    injection Hrem as <-. apply NoDup_cons. split; [|by apply IH].
    intros Hin. apply Hy. by apply (list_remove_elem x l r).
Qed.

Lemma closeEvent_registry_ok d w :
  registry_ok w → registry_ok (closeEvent d w).
Proof.
  intros [Hnd Hlt]. unfold closeEvent.
  destruct (list_remove (oid d) (dialogs w)) as [l|] eqn:Hrem; [|done].
  unfold registry_ok, release_lock.
  destruct (is_multisig (wallet d)); cbn; split;
    try (by apply (list_remove_NoDup (oid d) (dialogs w)));
    intros i Hi; apply Hlt; by apply (list_remove_elem (oid d) _ l).
Qed.

(** No event of a dialog breaks the list. *)
Lemma step_registry_ok e d w :
  registry_ok w → registry_ok (step e d w).2.
Proof.
  intros Hok. destruct e as [| | |o|t success|ok|f]; cbn [step]; try done.
  - destruct (my_qtimer d); [|done]. unfold timer_timeout. cbn.
    destruct (_ && _); cbn; [|done]. by apply closeEvent_registry_ok.
  - by apply closeEvent_registry_ok.
  - by apply closeEvent_registry_ok.
  - unfold do_broadcast. destruct (is_multisig (wallet d)), o; done.
Qed.

(** Nor does opening another dialog. *)
Lemma show_transaction_timeout_registry_ok
    tx_arg signed_arg desc_arg prompt_arg w :
  registry_ok w →
  registry_ok (show_transaction_timeout tx_arg signed_arg desc_arg prompt_arg w).2.
Proof.
  intros [Hnd Hlt]. unfold show_transaction_timeout.
  destruct (deserialize (read (txs w) tx_arg)) as [msg|t] eqn:Hparse.
  - destruct (init_raises tx_arg signed_arg desc_arg prompt_arg w msg Hparse)
      as (w' & Hinit & Hdialogs & _ & _ & _ & Hnext).
    rewrite Hinit. unfold registry_ok. cbn. rewrite Hdialogs, Hnext.
    split; [done|]. intros i Hi. specialize (Hlt i Hi). lia.
  - destruct (init_ok tx_arg signed_arg desc_arg prompt_arg w t Hparse)
      as (d & w' & Hinit & Hoid & _ & _ & _ & _ & _ & _ & _ & Hdialogs & Hnext
          & _).
    rewrite Hinit. unfold registry_ok. cbn. rewrite Hdialogs, Hnext, Hoid.
    split.
    + apply NoDup_app. split; [done|]. split; [|apply NoDup_singleton].
      intros i Hi Hin. apply list_elem_of_singleton in Hin as ->.
      specialize (Hlt _ Hi). lia.
    + intros i Hi. apply elem_of_app in Hi as [Hi|Hi].
      * specialize (Hlt i Hi). lia.
      * apply list_elem_of_singleton in Hi as ->. lia.
Qed.

(** * Further properties of the dialog *)

(** ** More about the constructor *)

(** The constructor that raises has not written to the caller's objects
    either. *)
Lemma init_raises_view tx_arg signed_arg desc_arg prompt_arg w msg :
  deserialize (read (txs w) tx_arg) = inl msg →
  ∃ w',
    __init__ tx_arg signed_arg desc_arg prompt_arg w
    = (inl (SerializationError msg), w')
    ∧ (∀ l, l < next_loc (txs w) → read (txs w') l = read (txs w) l)
    ∧ (∀ l, l < next_loc (signeds w) → read (signeds w') l = read (signeds w) l).
Proof.
  intros Hparse. unfold __init__. cbn [deepcopy with_txs with_signeds
    with_next_oid txs signeds next_oid server main_window].
  change (read _ (next_loc (txs w)))
    with (read (deepcopy tx_arg (txs w)).2 (deepcopy tx_arg (txs w)).1) at 1.
  rewrite read_deepcopy_new, Hparse.
  eexists. split; [reflexivity|].
  unfold read. cbn.
  split; intros l Hl; rewrite !decide_False by lia; reflexivity.
Qed.

(** A dialog that has been opened comes from a constructor that
    returned. *)
Lemma opened_inv tx_arg signed_arg desc_arg prompt_arg w d w' :
  show_transaction_timeout tx_arg signed_arg desc_arg prompt_arg w
  = (inr (Some d), w') →
  ∃ t d0 w0,
    deserialize (read (txs w) tx_arg) = inr t
    ∧ __init__ tx_arg signed_arg desc_arg prompt_arg w = (inr d0, w0)
    ∧ d = show d0
    ∧ w' = with_dialogs (dialogs w0 ++ [oid d0]) w0.
Proof.
  intros Hshow. unfold show_transaction_timeout in Hshow.
  destruct (deserialize (read (txs w) tx_arg)) as [msg|t] eqn:Hparse.
  - destruct (init_raises tx_arg signed_arg desc_arg prompt_arg w msg Hparse)
      as (w0 & Hinit & _).
    rewrite Hinit in Hshow. discriminate.
  - destruct (init_ok tx_arg signed_arg desc_arg prompt_arg w t Hparse)
      as (d0 & w0 & Hinit & _).
    rewrite Hinit in Hshow. injection Hshow as <- <-.
    by exists t, d0, w0.
Qed.

(** ** Runs of events *)

Lemma run_app es1 es2 d w :
  run (es1 ++ es2) d w = run es2 (run es1 d w).1 (run es1 d w).2.
Proof.
  revert d w. induction es1 as [|e es1 IH]; intros d w; [reflexivity|].
  cbn [app run]. destruct (step e d w) as [d1 w1]. apply IH.
Qed.

Lemma ticks_app es1 es2 : ticks (es1 ++ es2) = ticks es1 + ticks es2.
Proof.
  induction es1 as [|e es1 IH]; [reflexivity|].
  destruct e; cbn [app ticks]; lia.
Qed.

(** ** The countdown *)

Lemma step_countdown e d w :
  my_qtimer (step e d w).1 = my_qtimer d
  ∧ time_left_int (step e d w).1
    = (time_left_int d
       - match e with Tick => if my_qtimer d then 1 else 0 | _ => 0 end)%Z.
Proof.
  destruct e as [| | |o|t success|ok|f]; cbn [step].
  - destruct (my_qtimer d) eqn:Htimer; [|cbn; split; [done | lia]].
    unfold timer_timeout. cbn [set_time_left_int time_left_int visible].
    destruct (_ && _); cbn; split; done.
  - cbn. split; [done | lia].
  - cbn. split; [done | lia].
  - unfold do_broadcast. destruct o; cbn; split; try done; lia.
  - unfold sign, sign_done. cbn.
    destruct (is_complete _); cbn; split; try done; lia.
  - unfold save. destruct ok; cbn; split; try done; lia.
  - unfold export. destruct (bool_decide _); cbn; split; try done; lia.
Qed.

(** X1.  The countdown moves with the timer and with nothing else: after
    any events it is lower than before by the number of ticks among them
    when the timer was started, and it is what it was when it was not.
    Whether there is a timer never changes. *)
Theorem countdown_counts_ticks es d w :
  my_qtimer (run es d w).1 = my_qtimer d
  ∧ time_left_int (run es d w).1
    = (time_left_int d
       - if my_qtimer d then Z.of_nat (ticks es) else 0)%Z.
Proof.
  revert d w. induction es as [|e es IH]; intros d w.
  - cbn. split; [done|]. destruct (my_qtimer d); lia.
  - cbn [run]. destruct (step_countdown e d w) as [Htimer Hleft].
    destruct (step e d w) as [d1 w1]. cbn [fst snd] in *.
    destruct (IH d1 w1) as [IHtimer IHleft].
    rewrite IHtimer, IHleft, Htimer, Hleft. split; [done|].
    destruct e, (my_qtimer d); cbn [ticks]; lia.
Qed.

(** ** The label *)

Lemma update_label_fresh d w : label_fresh (update d w).
Proof. reflexivity. Qed.

Lemma step_label_fresh e d w :
  label_fresh d → label_fresh (step e d w).1.
Proof.
  intros Hfresh. destruct e as [| | |o|t success|ok|f]; cbn [step].
  - destruct (my_qtimer d); [|done]. unfold timer_timeout.
    cbn [set_time_left_int time_left_int visible].
    destruct (_ && _); apply update_label_fresh.
  - exact Hfresh.
  - exact Hfresh.
  - unfold do_broadcast. destruct o; [apply update_label_fresh | exact Hfresh].
  - apply update_label_fresh.
  - unfold save. by destruct ok.
  - unfold export. by destruct (bool_decide _).
Qed.

(** X2.  From the moment the dialog is opened its countdown label shows the
    countdown: whatever events follow, the label holds the quotient and the
    remainder of the countdown by 60, the seconds lie between 0 and 59 also
    when the countdown is negative, and sixty times the minutes plus the
    seconds is the countdown. *)
Theorem label_always_shows_countdown
    tx_arg signed_arg desc_arg prompt_arg w d w' es :
  show_transaction_timeout tx_arg signed_arg desc_arg prompt_arg w
  = (inr (Some d), w') →
  let d1 := (run es d w').1 in
  label_fresh d1
  ∧ (0 ≤ (time_out_label d1).2 < 60)%Z
  ∧ (60 * (time_out_label d1).1 + (time_out_label d1).2 = time_left_int d1)%Z.
Proof.
  intros Hshow d1.
  assert (Hfresh : label_fresh d1).
  { subst d1.
    destruct (opened_inv _ _ _ _ _ _ _ Hshow) as (t & d0 & w0 & Hparse & Hinit
      & -> & ->).
    destruct (init_ok_view tx_arg signed_arg desc_arg prompt_arg w t Hparse)
      as (d0' & w0' & Hinit' & Hlabel & _).
    rewrite Hinit in Hinit'. injection Hinit' as <- <-.
    assert (Hstart : label_fresh (show d0)) by exact Hlabel.
    clear -Hstart. revert Hstart.
    generalize (show d0) as d.
    generalize (with_dialogs (dialogs w0 ++ [oid d0]) w0) as w.
    induction es as [|e es IH]; intros w d Hd; [exact Hd|].
    cbn [run]. pose proof (step_label_fresh e d w Hd) as Hstep.
    destruct (step e d w) as [d2 w2]. by apply IH. }
  split; [exact Hfresh|]. rewrite Hfresh. cbn [fst snd].
  split; [apply Z.mod_pos_bound; lia|].
  pose proof (Z.div_mod (time_left_int d1) 60). lia.
Qed.

Lemma closeEvent_frame d w :
  txs (closeEvent d w) = txs w
  ∧ signeds (closeEvent d w) = signeds w
  ∧ main_window (closeEvent d w) = main_window w
  ∧ next_oid (closeEvent d w) = next_oid w
  ∧ critical_shown (closeEvent d w) = critical_shown w.
Proof.
  unfold closeEvent, release_lock.
  destruct (list_remove _ _); [|done]. by destruct (is_multisig _).
Qed.

(** ** Timing out *)

(** Whether an event is the tick that runs the countdown out. *)
Lemma step_timed_out e d w :
  timed_out (step e d w).1
  = match e with
    | Tick =>
        if my_qtimer d && (time_left_int d - 1 =? 0)%Z && visible d
        then true else timed_out d
    | _ => timed_out d
    end.
Proof.
  destruct e as [| | |o|t success|ok|f]; cbn [step].
  - destruct (my_qtimer d); [|done]. unfold timer_timeout.
    cbn [set_time_left_int time_left_int visible andb].
    by destruct (_ && _).
  - done.
  - done.
  - unfold do_broadcast. by destruct o.
  - unfold sign, sign_done. cbn. by destruct (is_complete _).
  - unfold save. by destruct ok.
  - unfold export. by destruct (bool_decide _).
Qed.

(** X4.  When the server holds no lock for the wallet, or one whose
    timestamp is 0, the dialog opens with the full [DURATION_INT] on the
    countdown and without a timer, having asked the server for the lock and
    for nothing else; whatever events follow, the countdown stays where it
    is and the dialog never times out. *)
Theorem dialog_without_lock_never_times_out
    tx_arg signed_arg desc_arg prompt_arg w t es :
  deserialize (read (txs w) tx_arg) = inr t →
  (∀ r, store (server w) !! own_hash (server w) = Some r → timestamp r = 0%Z) →
  ∃ d w',
    show_transaction_timeout tx_arg signed_arg desc_arg prompt_arg w
    = (inr (Some d), w')
    ∧ my_qtimer d = false
    ∧ time_left_int d = DURATION_INT
    ∧ calls (server w') = calls (server w) ++ [CallLock]
    ∧ my_qtimer (run es d w').1 = false
    ∧ time_left_int (run es d w').1 = DURATION_INT
    ∧ timed_out (run es d w').1 = false.
Proof.
  intros Hparse Hlock.
  assert (Hfalsy : truthy (expire_of (store (server w) !! own_hash (server w)))
                   = false).
  { destruct (store (server w) !! own_hash (server w)) as [r|] eqn:Hr; [|done].
    cbn. by rewrite (Hlock r eq_refl). }
  destruct (init_ok tx_arg signed_arg desc_arg prompt_arg w t Hparse)
    as (d & w' & Hinit & _ & _ & _ & _ & _ & Hout & Htimer & Hleft & _ & _ & _
        & _ & _ & _ & _ & Hcalls).
  rewrite Hfalsy in Htimer, Hleft, Hcalls.
  unfold show_transaction_timeout. rewrite Hinit.
  eexists _, _. split; [reflexivity|].
  split; [exact Htimer|]. split; [exact Hleft|]. split; [exact Hcalls|].
  assert (Hidle : my_qtimer (show d) = false) by exact Htimer.
  assert (Hfull : time_left_int (show d) = DURATION_INT) by exact Hleft.
  assert (Hstart : timed_out (show d) = false) by exact Hout.
  revert Hidle Hfull Hstart. generalize (show d) as d1.
  generalize (with_dialogs (dialogs w' ++ [oid d]) w') as w1.
  clear. induction es as [|e es IH]; intros w1 d1 Hidle Hfull Hstart; [done|].
  cbn [run]. pose proof (step_timed_out e d1 w1) as Hstep.
  destruct (step_countdown e d1 w1) as [Htimer Hleft].
  destruct (step e d1 w1) as [d2 w2]. cbn [fst snd] in *.
  apply IH.
  - by rewrite Htimer.
  - rewrite Hleft, Hidle, Hfull. destruct e; lia.
  - rewrite Hstep. destruct e; try done. by rewrite Hidle.
Qed.

(** A tick that does not reach zero. *)
Lemma timer_timeout_counting d w :
  time_left_int d ≠ 1%Z →
  timer_timeout d w
  = (update (set_time_left_int (time_left_int d - 1)%Z d) w, w).
Proof.
  intros Hne. unfold timer_timeout.
  cbn [set_time_left_int time_left_int visible].
  assert (Hnz : (time_left_int d - 1 =? 0)%Z = false) by (apply Z.eqb_neq; lia).
  by rewrite Hnz.
Qed.

(** The ticks before the last one. *)
Lemma run_ticks_counting n d w :
  my_qtimer d = true →
  (Z.of_nat n < time_left_int d)%Z →
  let r := run (repeat Tick n) d w in
  r.2 = w
  ∧ time_left_int r.1 = (time_left_int d - Z.of_nat n)%Z
  ∧ my_qtimer r.1 = true
  ∧ visible r.1 = visible d
  ∧ timed_out r.1 = timed_out d
  ∧ oid r.1 = oid d
  ∧ wallet r.1 = wallet d.
Proof.
  revert d. induction n as [|n IH]; intros d Htimer Hlt r; subst r.
  - cbn. repeat split; first [assumption | lia].
  - cbn [repeat run step]. rewrite Htimer.
    rewrite timer_timeout_counting by lia.
    destruct (IH (update (set_time_left_int (time_left_int d - 1)%Z d) w))
      as (Hw & Hleft & Ht & Hvis & Hout & Hoid & Hwallet).
    + exact Htimer.
    + cbn. lia.
    + rewrite Hw, Hleft, Ht, Hvis, Hout, Hoid, Hwallet. cbn.
      repeat split; lia.
Qed.

Lemma closeEvent_ext d d' w :
  oid d' = oid d → wallet d' = wallet d → closeEvent d' w = closeEvent d w.
Proof. intros Hoid Hwallet. unfold closeEvent, release_lock. by rewrite Hoid, Hwallet. Qed.

(** Closing a listed dialog of a multisig wallet. *)
Lemma closeEvent_listed_multisig d w :
  oid d ∈ dialogs w →
  is_multisig (wallet d) = true →
  calls (server (closeEvent d w)) = calls (server w) ++ [CallDelLock]
  ∧ store (server (closeEvent d w)) !! own_hash (server w) = None.
Proof.
  intros Hin Hmulti. unfold closeEvent.
  destruct (list_remove (oid d) (dialogs w)) as [l|] eqn:Hrem.
  - unfold release_lock. rewrite Hmulti. cbn. by rewrite lookup_delete_eq.
  - apply list_remove_None_count, count_occ_0_not_elem in Hrem. done.
Qed.

(** X5.  A dialog opened on a lock that is younger than [DURATION_INT]
    runs out exactly on time.  With [left] seconds on the countdown at the
    start, any smaller number of ticks leaves it visible, not timed out and
    the world untouched; the tick number [left] hides it, sets
    [timed_out], takes it out of [dialogs] and, on a multisig wallet,
    executes [del server.lock], after which the record is gone. *)
Theorem dialog_expires_exactly_on_time
    tx_arg signed_arg desc_arg prompt_arg w t r :
  registry_ok w →
  deserialize (read (txs w) tx_arg) = inr t →
  store (server w) !! own_hash (server w) = Some r →
  timestamp r ≠ 0%Z →
  (clock (server w) - timestamp r < DURATION_INT)%Z →
  ∃ d w',
    show_transaction_timeout tx_arg signed_arg desc_arg prompt_arg w
    = (inr (Some d), w')
    ∧ let left := (DURATION_INT - (clock (server w) - timestamp r))%Z in
      time_left_int d = left
      ∧ (∀ n, (Z.of_nat n < left)%Z →
           (run (repeat Tick n) d w').2 = w'
           ∧ time_left_int (run (repeat Tick n) d w').1 = (left - Z.of_nat n)%Z
           ∧ visible (run (repeat Tick n) d w').1 = true
           ∧ timed_out (run (repeat Tick n) d w').1 = false)
      ∧ let last := run (repeat Tick (Z.to_nat left)) d w' in
        time_left_int last.1 = 0%Z
        ∧ Expired last.1
        ∧ Closed last.1 last.2
        ∧ last.2 = closeEvent d w'
        ∧ (is_multisig (wallet d) = true →
           calls (server last.2) = calls (server w') ++ [CallDelLock]
           ∧ store (server last.2) !! own_hash (server w) = None).
Proof.
  intros Hok Hparse Hlock Hts Hyoung.
  pose proof (show_transaction_timeout_registry_ok
                tx_arg signed_arg desc_arg prompt_arg w Hok) as Hok'.
  destruct (init_ok tx_arg signed_arg desc_arg prompt_arg w t Hparse)
    as (d & w' & Hinit & Hoid & _ & _ & _ & _ & Hout & Htimer & Hleft & _ & _
        & _ & _ & _ & Hhash & _).
  rewrite Hlock in Htimer, Hleft. cbn [expire_of truthy default] in Htimer, Hleft.
  assert (Hnz : (timestamp r =? 0)%Z = false) by (apply Z.eqb_neq; exact Hts).
  rewrite Hnz in Htimer, Hleft. cbn [negb] in Htimer, Hleft.
  unfold seed_time_left, id in Hleft.
  unfold show_transaction_timeout in *. rewrite Hinit in *. cbn [snd] in Hok'.
  eexists _, _. split; [reflexivity|].
  set (left := (DURATION_INT - (clock (server w) - timestamp r))%Z) in *.
  set (w1 := with_dialogs (dialogs w' ++ [oid d]) w') in *.
  assert (Hstart : time_left_int (show d) = left) by exact Hleft.
  assert (Hrunning : my_qtimer (show d) = true) by exact Htimer.
  split; [exact Hstart|]. split.
  - intros n Hn.
    destruct (run_ticks_counting n (show d) w1 Hrunning)
      as (Hw & Hl & _ & Hvis & Ho & _); [lia|].
    rewrite Hw, Hl, Hvis, Ho, Hstart. cbn. by rewrite Hout.
  - assert (Hpos : (1 ≤ left)%Z) by (subst left; lia).
    replace (Z.to_nat left) with (Z.to_nat (left - 1) + 1) by lia.
    rewrite repeat_app, run_app.
    destruct (run_ticks_counting (Z.to_nat (left - 1)) (show d) w1 Hrunning)
      as (Hw & Hl & Ht & Hvis & _ & Hoid1 & Hwallet1); [lia|].
    set (before := run (repeat Tick (Z.to_nat (left - 1))) (show d) w1) in *.
    cbn [repeat run step]. rewrite Ht, Hw.
    rewrite timer_timeout_expiring; [|rewrite Hl; lia | by rewrite Hvis].
    cbn [fst snd].
    rewrite (closeEvent_ext (show d) before.1 w1 Hoid1 Hwallet1).
    assert (Hsame : closeEvent (show d) w1 = closeEvent d w1) by reflexivity.
    split; [reflexivity|]. split; [reflexivity|]. split; [|split; [done|]].
    + split; [reflexivity|]. cbn [oid update set_visible set_timed_out
        set_time_left_int set_broadcast_button set_sign_button
        set_time_out_label]. rewrite Hoid1.
      apply (closeEvent_not_elem (show d) w1). by destruct Hok'.
    + intros Hmulti.
      assert (Hin : oid (show d) ∈ dialogs w1).
      { subst w1. cbn. apply elem_of_app. right. by apply list_elem_of_singleton. }
      destruct (closeEvent_listed_multisig (show d) w1 Hin Hmulti)
        as [Hcalls Hgone].
      split; [exact Hcalls|]. subst w1. cbn in Hgone. by rewrite <- Hhash.
Qed.

(** ** Visible and listed *)

Lemma step_listed_while_visible e d w :
  listed_while_visible d w →
  listed_while_visible (step e d w).1 (step e d w).2.
Proof.
  intros (Hok & Hvis & Hout).
  pose proof (step_registry_ok e d w Hok) as Hok'.
  split; [exact Hok'|]. clear Hok'.
  assert (Hclose : ∀ d', oid d' = oid d →
            (false = true ↔ oid d ∈ dialogs (closeEvent d' w))).
  { intros d' Hoid. split; [done|]. intros Hin. exfalso.
    rewrite <- Hoid in Hin. revert Hin. apply closeEvent_not_elem.
    by destruct Hok. }
  destruct e as [| | |o|t success|ok|f]; cbn [step].
  - destruct (my_qtimer d); [|done]. unfold timer_timeout.
    cbn [set_time_left_int time_left_int visible].
    destruct (_ && _); cbn; [|done]. split; [by apply Hclose | done].
  - cbn. split; [by apply Hclose | done].
  - cbn. split; [by apply Hclose | done].
  - unfold do_broadcast.
    destruct (is_multisig (wallet d)), o; cbn; done.
  - unfold sign, sign_done. cbn. destruct (is_complete _); cbn; done.
  - unfold save. destruct ok; cbn; done.
  - unfold export. destruct (bool_decide _); cbn; done.
Qed.

(** X6.  A dialog opened by [show_transaction_timeout] is in [dialogs]
    exactly while it is visible, whatever events follow, and [dialogs]
    never lists a dialog twice.  A dialog that has timed out is hidden and
    out of the list: expired implies closed. *)
Theorem dialog_listed_while_visible
    tx_arg signed_arg desc_arg prompt_arg w d w' es :
  registry_ok w →
  show_transaction_timeout tx_arg signed_arg desc_arg prompt_arg w
  = (inr (Some d), w') →
  let r := run es d w' in
  listed_while_visible r.1 r.2 ∧ (Expired r.1 → Closed r.1 r.2).
Proof.
  intros Hok Hshow r.
  assert (Hinv : listed_while_visible r.1 r.2).
  { subst r.
    pose proof (show_transaction_timeout_registry_ok
                  tx_arg signed_arg desc_arg prompt_arg w Hok) as Hok'.
    rewrite Hshow in Hok'. cbn [snd] in Hok'.
    destruct (opened_inv _ _ _ _ _ _ _ Hshow) as (t & d0 & w0 & Hparse & Hinit
      & -> & ->).
    destruct (init_ok tx_arg signed_arg desc_arg prompt_arg w t Hparse)
      as (d0' & w0' & Hinit' & _ & _ & _ & _ & _ & Hout & _).
    rewrite Hinit in Hinit'. injection Hinit' as <- <-.
    assert (Hstart : listed_while_visible (show d0)
                       (with_dialogs (dialogs w0 ++ [oid d0]) w0)).
    { split; [exact Hok'|]. split.
      - split; [|done]. intros _. cbn. apply elem_of_app. right.
        by apply list_elem_of_singleton.
      - cbn. by rewrite Hout. }
    clear -Hstart. revert Hstart.
    generalize (show d0) as d.
    generalize (with_dialogs (dialogs w0 ++ [oid d0]) w0) as w.
    induction es as [|e es IH]; intros w d Hd; [exact Hd|].
    cbn [run]. pose proof (step_listed_while_visible e d w Hd) as Hstep.
    destruct (step e d w) as [d2 w2]. by apply IH. }
  split; [exact Hinv|]. destruct Hinv as (_ & Hvis & Hout).
  intros Hexp. specialize (Hout Hexp). split; [exact Hout|].
  intros Hin. apply Hvis in Hin. congruence.
Qed.

(** ** What the dialog writes to *)

Lemma step_stores e d w :
  (∀ l, l ≠ tx d → read (txs (step e d w).2) l = read (txs w) l)
  ∧ signeds (step e d w).2 = signeds w.
Proof.
  destruct e as [| | |o|t success|ok|f]; cbn [step].
  - destruct (my_qtimer d); [|done]. unfold timer_timeout.
    cbn [set_time_left_int time_left_int visible].
    destruct (_ && _); cbn [close fst snd]; [|done].
    destruct (closeEvent_frame (set_timed_out true
                (set_time_left_int (time_left_int d - 1)%Z d)) w)
      as (-> & -> & _). done.
  - cbn. destruct (closeEvent_frame d w) as (-> & -> & _). done.
  - cbn. destruct (closeEvent_frame d w) as (-> & -> & _). done.
  - unfold do_broadcast. destruct (is_multisig (wallet d)), o; done.
  - unfold sign. cbn [fst snd set_sign_button tx with_txs txs signeds].
    split; [|done]. intros l Hl. by apply read_write_ne.
  - done.
  - done.
Qed.

(** X7.  The dialog never writes to an object of its caller.  Opening it,
    also when the constructor raises, and every event that follows leave
    each transaction and each [signed] object that existed before as it
    was: parsing, the wallet's input information and the signatures all go
    to the dialog's own copy. *)
Theorem dialog_never_writes_callers_objects
    tx_arg signed_arg desc_arg prompt_arg w :
  let r := show_transaction_timeout tx_arg signed_arg desc_arg prompt_arg w in
  (∀ l, l < next_loc (txs w) → read (txs r.2) l = read (txs w) l)
  ∧ (∀ l, l < next_loc (signeds w) → read (signeds r.2) l = read (signeds w) l)
  ∧ ∀ d es, r.1 = inr (Some d) →
      (∀ l, l < next_loc (txs w) →
         read (txs (run es d r.2).2) l = read (txs w) l)
      ∧ (∀ l, l < next_loc (signeds w) →
           read (signeds (run es d r.2).2) l = read (signeds w) l).
Proof.
  intros r. subst r. unfold show_transaction_timeout.
  destruct (deserialize (read (txs w) tx_arg)) as [msg|t] eqn:Hparse.
  - destruct (init_raises_view tx_arg signed_arg desc_arg prompt_arg w msg
                Hparse) as (w0 & Hinit & Htxs & Hsig).
    rewrite Hinit. cbn. split; [exact Htxs|]. split; [exact Hsig|].
    intros d es Hd. discriminate.
  - destruct (init_ok tx_arg signed_arg desc_arg prompt_arg w t Hparse)
      as (d0 & w0 & Hinit & _ & Htx & _).
    destruct (init_ok_view tx_arg signed_arg desc_arg prompt_arg w t Hparse)
      as (d0' & w0' & Hinit' & _ & _ & _ & Htxs & Hsig & _).
    rewrite Hinit in Hinit'. injection Hinit' as <- <-.
    rewrite Hinit. cbn [fst snd with_dialogs txs signeds].
    split; [exact Htxs|]. split; [exact Hsig|].
    intros d es Hd. injection Hd as <-.
    assert (Hown : tx (show d0) = next_loc (txs w)) by exact Htx.
    assert (Htxs1 : ∀ l, l < next_loc (txs w) →
              read (txs (with_dialogs (dialogs w0 ++ [oid d0]) w0)) l
              = read (txs w) l) by exact Htxs.
    assert (Hsig1 : ∀ l, l < next_loc (signeds w) →
              read (signeds (with_dialogs (dialogs w0 ++ [oid d0]) w0)) l
              = read (signeds w) l) by exact Hsig.
    revert Hown Htxs1 Hsig1. generalize (show d0) as d.
    generalize (with_dialogs (dialogs w0 ++ [oid d0]) w0) as w1.
    clear. induction es as [|e es IH]; intros w1 d Hown Htxs Hsig; [done|].
    cbn [run]. destruct (step_stores e d w1) as [Hother Hsame].
    destruct (step_tx e d w1) as [Htx _].
    destruct (step e d w1) as [d2 w2]. cbn [fst snd] in *.
    apply IH.
    + by rewrite Htx.
    + intros l Hl. rewrite Hother by lia. by apply Htxs.
    + intros l Hl. rewrite Hsame. by apply Hsig.
Qed.

(** ** What the dialog asks of the server *)

Lemma closeEvent_server d w :
  own_hash (server (closeEvent d w)) = own_hash (server w)
  ∧ clock (server (closeEvent d w)) = clock (server w)
  ∧ (∀ k, k ≠ own_hash (server w) →
       store (server (closeEvent d w)) !! k = store (server w) !! k)
  ∧ ∃ suffix,
      calls (server (closeEvent d w)) = calls (server w) ++ suffix
      ∧ Forall (is_own_delete (own_hash (server w))) suffix.
Proof.
  unfold closeEvent, release_lock.
  destruct (list_remove _ _); [destruct (is_multisig _)|]; cbn.
  - repeat split.
    + intros k Hk. by apply lookup_delete_ne.
    + exists [CallDelLock]. split; [done|].
      apply Forall_singleton. unfold is_own_delete. auto.
  - repeat split. exists []. by rewrite app_nil_r.
  - repeat split. exists []. by rewrite app_nil_r.
Qed.

Lemma step_server e d w :
  own_hash (server (step e d w).2) = own_hash (server w)
  ∧ clock (server (step e d w).2) = clock (server w)
  ∧ (∀ k, k ≠ own_hash (server w) →
       store (server (step e d w).2) !! k = store (server w) !! k)
  ∧ ∃ suffix,
      calls (server (step e d w).2) = calls (server w) ++ suffix
      ∧ Forall (is_own_delete (own_hash (server w))) suffix.
Proof.
  assert (Hnone : own_hash (server w) = own_hash (server w)
    ∧ clock (server w) = clock (server w)
    ∧ (∀ k, k ≠ own_hash (server w) →
         store (server w) !! k = store (server w) !! k)
    ∧ ∃ suffix, calls (server w) = calls (server w) ++ suffix
        ∧ Forall (is_own_delete (own_hash (server w))) suffix).
  { repeat split. exists []. by rewrite app_nil_r. }
  destruct e as [| | |o|t success|ok|f]; cbn [step]; try exact Hnone.
  - destruct (my_qtimer d); [|exact Hnone]. unfold timer_timeout.
    cbn [set_time_left_int time_left_int visible].
    destruct (_ && _); cbn [close fst snd]; [|exact Hnone].
    apply closeEvent_server.
  - apply closeEvent_server.
  - apply closeEvent_server.
  - unfold do_broadcast.
    destruct (is_multisig (wallet d)); [|destruct o; exact Hnone].
    assert (Hdel : own_hash (server_delete (own_hash (server w))
                      (log CallWalletHash (server w))) = own_hash (server w)
      ∧ clock (server_delete (own_hash (server w))
                 (log CallWalletHash (server w))) = clock (server w)
      ∧ (∀ k, k ≠ own_hash (server w) →
           store (server_delete (own_hash (server w))
                    (log CallWalletHash (server w))) !! k
           = store (server w) !! k)
      ∧ ∃ suffix,
          calls (server_delete (own_hash (server w))
                   (log CallWalletHash (server w)))
          = calls (server w) ++ suffix
          ∧ Forall (is_own_delete (own_hash (server w))) suffix).
    { cbn. repeat split.
      - intros k Hk. by apply lookup_delete_ne.
      - exists [CallWalletHash; CallDelete (own_hash (server w))].
        split; [by rewrite <- app_assoc|].
        repeat apply Forall_cons_2; unfold is_own_delete; auto. }
    destruct o; exact Hdel.
Qed.


(** X9.  After the constructor the dialog never reads the lock or the
    server's time again.  Every call an event adds to the server's log is
    [server.wallet_hash()], [server.delete] of the wallet's own hash or
    [del server.lock]. *)
Theorem dialog_never_rereads_lock es d w :
  ∃ suffix,
    calls (server (run es d w).2) = calls (server w) ++ suffix
    ∧ Forall (is_own_delete (own_hash (server w))) suffix
    ∧ (CallLock ∉ suffix)
    ∧ (CallGetCurrentTime ∉ suffix).
Proof.
  assert (Hmain : ∃ suffix,
            calls (server (run es d w).2) = calls (server w) ++ suffix
            ∧ Forall (is_own_delete (own_hash (server w))) suffix).
  { revert d w. induction es as [|e es IH]; intros d w.
    - exists []. by rewrite app_nil_r.
    - cbn [run].
      destruct (step_server e d w) as (Hhash & _ & _ & s1 & Hcalls & Hs1).
      destruct (step e d w) as [d1 w1]. cbn [fst snd] in *.
      destruct (IH d1 w1) as (s2 & IHcalls & Hs2).
      exists (s1 ++ s2). rewrite IHcalls, Hcalls, app_assoc.
      split; [done|]. apply Forall_app. split; [done|]. by rewrite <- Hhash. }
  destruct Hmain as (suffix & Hcalls & Hall).
  exists suffix. split; [exact Hcalls|]. split; [exact Hall|].
  rewrite Forall_forall in Hall.
  split; intros Hin; destruct (Hall _ Hin) as [?|[?|?]]; discriminate.
Qed.

(** ** The list of dialogs, continued *)

Lemma list_remove_other (x i : nat) (l l' : list nat) :
  list_remove x l = Some l' → i ≠ x → i ∈ l → i ∈ l'.
Proof.
  revert l'. induction l as [|y l IH]; intros l' Hrem Hne Hi; [discriminate|].
  cbn [list_remove] in Hrem. destruct (decide (x = y)) as [->|Hxy].
  - injection Hrem as <-. apply elem_of_cons in Hi as [->|Hi]; done.
  - destruct (list_remove x l) as [r|] eqn:Hr; [|discriminate].
    injection Hrem as <-. apply elem_of_cons in Hi as [->|Hi].
    + apply elem_of_cons. by left.
    + apply elem_of_cons. right. by apply IH.
Qed.

Lemma filter_ne_id (x : nat) (l : list nat) :
  x ∉ l → filter (λ i, i ≠ x) l = l.
Proof.
  induction l as [|y l IH]; intros Hx; [done|].
  apply not_elem_of_cons in Hx as [Hne Hx].
  rewrite filter_cons_True by congruence. by rewrite IH.
Qed.

Lemma list_remove_filter (x : nat) (l : list nat) :
  NoDup l →
  match list_remove x l with
  | Some l' => l'
  | None => l
  end = filter (λ i, i ≠ x) l.
Proof.
  induction l as [|y l IH]; intros Hnd; [done|].
  apply NoDup_cons in Hnd as [Hy Hnd]. specialize (IH Hnd).
  cbn [list_remove]. destruct (decide (x = y)) as [->|Hxy].
  - rewrite filter_cons_False by (intros Hn; by apply Hn).
    by rewrite filter_ne_id.
  - rewrite filter_cons_True by congruence.
    destruct (list_remove x l) as [r|]; by f_equal.
Qed.

(** X10.  [show_transaction_timeout] puts the dialog it opens at the end
    of [dialogs], under an identity the list did not hold, shows it, and
    leaves a list without duplicates. *)
Theorem opening_lists_dialog_once
    tx_arg signed_arg desc_arg prompt_arg w d w' :
  registry_ok w →
  show_transaction_timeout tx_arg signed_arg desc_arg prompt_arg w
  = (inr (Some d), w') →
  (oid d ∉ dialogs w)
  ∧ dialogs w' = dialogs w ++ [oid d]
  ∧ visible d = true
  ∧ registry_ok w'.
Proof.
  intros Hok Hshow.
  pose proof (show_transaction_timeout_registry_ok
                tx_arg signed_arg desc_arg prompt_arg w Hok) as Hok'.
  rewrite Hshow in Hok'. cbn [snd] in Hok'.
  destruct (opened_inv _ _ _ _ _ _ _ Hshow) as (t & d0 & w0 & Hparse & Hinit
    & -> & ->).
  destruct (init_ok tx_arg signed_arg desc_arg prompt_arg w t Hparse)
    as (d0' & w0' & Hinit' & Hoid & _ & _ & _ & _ & _ & _ & _ & Hdialogs & _).
  rewrite Hinit in Hinit'. injection Hinit' as <- <-.
  split; [|split; [|split]].
  - cbn. rewrite Hoid. intros Hin. destruct Hok as [_ Hlt].
    specialize (Hlt _ Hin). lia.
  - cbn. by rewrite Hdialogs.
  - reflexivity.
  - exact Hok'.
Qed.

(** X11.  Closing a dialog takes its own entry out of [dialogs] and no
    other: the list afterwards is the list before without the dialog's
    identity, the other dialogs in their order, and the same list when the
    dialog was not in it. *)
Theorem closing_unlists_only_self d w :
  NoDup (dialogs w) →
  dialogs (close d w).2 = filter (λ i, i ≠ oid d) (dialogs w)
  ∧ (oid d ∉ dialogs w → (close d w).2 = w)
  ∧ ∀ i, i ≠ oid d → (i ∈ dialogs (close d w).2 ↔ i ∈ dialogs w).
Proof.
  intros Hnd.
  assert (Hfilter : dialogs (close d w).2 = filter (λ i, i ≠ oid d) (dialogs w)).
  { rewrite <- (list_remove_filter (oid d) (dialogs w) Hnd).
    cbn [close snd]. unfold closeEvent.
    destruct (list_remove (oid d) (dialogs w)); [|done].
    by rewrite release_lock_dialogs. }
  split; [exact Hfilter|]. split.
  - intros Hnot. cbn [close snd]. unfold closeEvent.
    apply count_occ_0_not_elem, list_remove_None_count in Hnot.
    by rewrite Hnot.
  - intros i Hi. rewrite Hfilter, list_elem_of_filter. tauto.
Qed.

(** X12.  The lock belongs to the wallet, not to a dialog.  With two
    dialogs of a multisig wallet open, closing one deletes the lock record
    while the other stays listed, and the other goes on counting down as
    before: its ticks take one off its countdown each and it has not timed
    out. *)
Theorem closing_one_dialog_releases_shared_lock d1 d2 w n :
  oid d1 ∈ dialogs w →
  oid d2 ∈ dialogs w →
  oid d1 ≠ oid d2 →
  is_multisig (wallet d1) = true →
  my_qtimer d2 = true →
  (Z.of_nat n < time_left_int d2)%Z →
  let w1 := (close d1 w).2 in
  store (server w1) !! own_hash (server w) = None
  ∧ oid d2 ∈ dialogs w1
  ∧ time_left_int (run (repeat Tick n) d2 w1).1
    = (time_left_int d2 - Z.of_nat n)%Z
  ∧ timed_out (run (repeat Tick n) d2 w1).1 = timed_out d2
  ∧ (run (repeat Tick n) d2 w1).2 = w1.
Proof.
  intros Hin1 Hin2 Hne Hmulti Htimer Hn w1. subst w1. cbn [close snd].
  destruct (closeEvent_listed_multisig d1 w Hin1 Hmulti) as [_ Hgone].
  split; [exact Hgone|]. split.
  - unfold closeEvent.
    destruct (list_remove (oid d1) (dialogs w)) as [l|] eqn:Hrem; [|done].
    rewrite release_lock_dialogs. cbn.
    by apply (list_remove_other (oid d1) (oid d2) (dialogs w)).
  - destruct (run_ticks_counting n d2 (closeEvent d1 w) Htimer Hn)
      as (Hw & Hleft & _ & _ & Hout & _).
    by rewrite Hw, Hleft, Hout.
Qed.

(** ** Broadcasting and closing *)

(** X16.  A broadcast does not close the dialog or stop its countdown:
    the dialog stays listed, as visible as it was, with the same countdown
    and timer.  On a multisig wallet the close that follows deletes the
    lock a second time, so that a broadcast and a close together leave
    [server.wallet_hash()], [server.delete] and [del server.lock] in the
    server's log, and no record. *)
Theorem broadcast_then_close_deletes_twice o d w :
  oid d ∈ dialogs w →
  is_multisig (wallet d) = true →
  let b := step (Broadcast o) d w in
  let r := run [Broadcast o; Close] d w in
  (dialogs b.2 = dialogs w ∧ visible b.1 = visible d
   ∧ time_left_int b.1 = time_left_int d ∧ my_qtimer b.1 = my_qtimer d
   ∧ timed_out b.1 = timed_out d)
  ∧ calls (server r.2)
    = calls (server w)
      ++ [CallWalletHash; CallDelete (own_hash (server w)); CallDelLock]
  ∧ store (server r.2) !! own_hash (server w) = None
  ∧ visible r.1 = false.
Proof.
  intros Hin Hmulti b r. subst b r. cbn [run step].
  unfold do_broadcast. rewrite Hmulti.
  cbn [server_wallet_hash].
  set (w1 := with_server (server_delete (own_hash (server w))
                            (log CallWalletHash (server w))) w).
  assert (Hin1 : oid d ∈ dialogs w1) by exact Hin.
  assert (Hcalls1 : calls (server w1)
            = calls (server w)
              ++ [CallWalletHash; CallDelete (own_hash (server w))]).
  { subst w1. cbn. by rewrite <- app_assoc. }
  destruct o as [|e]; cbn [fst snd close].
  - split; [done|].
    destruct (closeEvent_listed_multisig (update (set_saved true d) w1) w1
                Hin1 Hmulti) as [Hcalls Hgone].
    rewrite Hcalls, Hcalls1, <- app_assoc. done.
  - split; [done|].
    destruct (closeEvent_listed_multisig d w1 Hin1 Hmulti) as [Hcalls Hgone].
    rewrite Hcalls, Hcalls1, <- app_assoc. done.
Qed.

End Properties.

(** * The texts *)

Section Texts.

Context {Transaction Signed : Type}.
Variable is_complete : Transaction -> bool.
Variable txid : Transaction -> option string.

Implicit Types (d : @TxDialogTimeout Transaction).
Implicit Types (w : @World Transaction Signed).

#[local] Abbreviation update := (update is_complete).
#[local] Abbreviation export_name := (export_name is_complete txid).

Lemma length_append (s1 s2 : string) :
  String.length (s1 +:+ s2) = String.length s1 + String.length s2.
Proof. induction s1 as [|c s1 IH]; simpl; [done | by f_equal]. Qed.

Lemma length_substring_0 (m : nat) (s : string) :
  String.length (String.substring 0 m s) = m `min` String.length s.
Proof.
  revert s. induction m as [|m IH]; intros [|c s]; simpl; try done.
  by f_equal.
Qed.

Lemma append_eq_length (a a' b b' : string) :
  String.length a = String.length a' →
  a +:+ b = a' +:+ b' → a = a' ∧ b = b'.
Proof.
  revert a'. induction a as [|c a IH]; intros [|c' a'] Hlen Heq;
    cbn in Hlen; try discriminate.
  - done.
  - cbn in Heq. injection Heq as -> Heq.
    destruct (IH a') as [-> ->]; [lia | done | done].
Qed.

(** X13.  The file name [export] proposes tells whether the transaction
    was complete: it is "unsigned.txn" exactly for an incomplete
    transaction, whose [txid()] is not even asked for, and for a complete
    one it is "signed_", the first eight characters of the txid and
    ".txn", nineteen characters at most.  Composing the name fails only
    for a complete transaction without a txid. *)
Theorem export_name_tells_completeness (t : Transaction) :
  (export_name t = Some "unsigned.txn" ↔ is_complete t = false)
  ∧ (export_name t = None ↔ is_complete t = true ∧ txid t = None)
  ∧ ∀ h, is_complete t = true → txid t = Some h →
      export_name t = Some ("signed_" +:+ String.substring 0 8 h +:+ ".txn")
      ∧ String.length ("signed_" +:+ String.substring 0 8 h +:+ ".txn")
        = 11 + 8 `min` String.length h
      ∧ String.length ("signed_" +:+ String.substring 0 8 h +:+ ".txn") ≤ 19.
Proof.
  unfold export_name.
  split; [|split].
  - destruct (is_complete t); [|done].
    destruct (txid t) as [h|]; split; try discriminate.
  - destruct (is_complete t); [|split; [discriminate | intros [? _]; discriminate]].
    destruct (txid t) as [h|]; split; try done.
    intros [_ ?]. discriminate.
  - intros h -> ->. split; [done|].
    rewrite !length_append, length_substring_0. cbn [String.length].
    split; lia.
Qed.

Lemma format_02d_two_digits (n : Z) :
  (0 ≤ n < 100)%Z → String.length (format_02d n) = 2.
Proof.
  intros Hn.
  assert (Hall : Forall (λ n, String.length (format_02d n) = 2) (seqZ 0 100))
    by (apply (bool_decide_unpack _); vm_compute; exact I).
  rewrite Forall_forall in Hall. apply Hall, elem_of_seqZ. lia.
Qed.

Lemma format_02d_inj (n m : Z) :
  (0 ≤ n < 100)%Z → (0 ≤ m < 100)%Z → format_02d n = format_02d m → n = m.
Proof.
  intros Hn Hm.
  assert (Hall : Forall (λ n, Forall (λ m, format_02d n = format_02d m → n = m)
                                     (seqZ 0 100)) (seqZ 0 100))
    by (apply (bool_decide_unpack _); vm_compute; exact I).
  rewrite Forall_forall in Hall.
  specialize (Hall n). rewrite Forall_forall in Hall.
  apply Hall; apply elem_of_seqZ; lia.
Qed.

(** X14.  With between 0 and 5999 seconds on the countdown the label that
    [update] writes is "Time left: mm:ss", sixteen characters with two
    digits for the minutes and two for the seconds, and it tells the
    countdown: two countdowns in that range with the same label are the
    same. *)
Theorem countdown_label_reads_mm_ss d w :
  (0 ≤ time_left_int d < 6000)%Z →
  (∃ mm ss,
     time_out_text (update d w) = "Time left: " +:+ mm +:+ ":" +:+ ss
     ∧ String.length mm = 2 ∧ String.length ss = 2
     ∧ mm = format_02d (time_left_int d / 60)
     ∧ ss = format_02d (time_left_int d mod 60))
  ∧ String.length (time_out_text (update d w)) = 16
  ∧ ∀ d' w',
      (0 ≤ time_left_int d' < 6000)%Z →
      time_out_text (update d' w') = time_out_text (update d w) →
      time_left_int d' = time_left_int d.
Proof.
  intros Hrange.
  assert (Hfields : ∀ t, (0 ≤ t < 6000)%Z →
            (0 ≤ t / 60 < 100)%Z ∧ (0 ≤ t mod 60 < 100)%Z).
  { intros t Ht. pose proof (Z.mod_pos_bound t 60).
    pose proof (Z.div_mod t 60). split; [|lia].
    split; [apply Z.div_pos; lia | apply Z.div_lt_upper_bound; lia]. }
  destruct (Hfields _ Hrange) as [Hm Hs].
  pose proof (format_02d_two_digits _ Hm) as Hlm.
  pose proof (format_02d_two_digits _ Hs) as Hls.
  assert (Htext : ∀ d0 w0,
            time_out_text (update d0 w0)
            = "Time left: " +:+ format_02d (time_left_int d0 / 60)
              +:+ ":" +:+ format_02d (time_left_int d0 mod 60))
    by reflexivity.
  split; [|split].
  - eexists _, _. split; [apply Htext|]. done.
  - rewrite Htext, !length_append, Hlm, Hls. reflexivity.
  - intros d' w' Hrange' Heq. rewrite !Htext in Heq.
    destruct (Hfields _ Hrange') as [Hm' Hs'].
    apply (inj (String.append "Time left: ")) in Heq.
    apply append_eq_length in Heq as [Hmm Hrest];
      [|by rewrite !format_02d_two_digits].
    apply (inj (String.append ":")) in Hrest.
    apply format_02d_inj in Hmm; [|done..].
    apply format_02d_inj in Hrest; [|done..].
    pose proof (Z.div_mod (time_left_int d) 60).
    pose proof (Z.div_mod (time_left_int d') 60). lia.
Qed.

(** X15.  With the countdown below zero the label carries a minus sign
    in the minutes while the seconds stay between 00 and 59: the text
    begins "Time left: -", and one second below zero reads "-1:59". *)
Theorem negative_countdown_label d w :
  (time_left_int d < 0)%Z →
  ∃ minutes,
    time_out_text (update d w)
    = "Time left: -" +:+ minutes +:+ ":"
      +:+ format_02d (time_left_int d mod 60)
    ∧ String.length (format_02d (time_left_int d mod 60)) = 2
    ∧ (time_left_int d = (-1)%Z →
       time_out_text (update d w) = "Time left: -1:59").
Proof.
  intros Hneg.
  assert (Htext : time_out_text (update d w)
            = "Time left: " +:+ format_02d (time_left_int d / 60)
              +:+ ":" +:+ format_02d (time_left_int d mod 60))
    by reflexivity.
  assert (Hmin : (time_left_int d / 60 < 0)%Z)
    by (apply Z.div_lt_upper_bound; lia).
  destruct (time_left_int d / 60)%Z as [|p|p] eqn:Hq; try lia.
  exists (pretty p). rewrite Htext. split; [|split].
  - unfold format_02d at 1. rewrite bool_decide_eq_false_2 by lia. reflexivity.
  - apply format_02d_two_digits.
    pose proof (Z.mod_pos_bound (time_left_int d) 60). lia.
  - intros Hone. rewrite Hone in Hq |- *.
    assert (p = 1%positive) as -> by (vm_compute in Hq; congruence).
    reflexivity.
Qed.

End Texts.

(** * The theorems at work on the sample transactions *)

Section Examples.

Import Sample.

#[local] Abbreviation update := (update sample_is_complete).
#[local] Abbreviation do_broadcast := (do_broadcast sample_is_complete).
#[local] Abbreviation sign := (sign sample_is_complete).
#[local] Abbreviation step := (step sample_is_complete).
#[local] Abbreviation run := (run sample_is_complete).
#[local] Abbreviation run_all := (run_all sample_is_complete).
#[local] Abbreviation __init__ := (__init__ sample_deserialize sample_is_complete).
#[local] Abbreviation show_transaction_timeout :=
  (show_transaction_timeout sample_deserialize sample_is_complete).

Example locked_dialog_opens :
  show_transaction_timeout 0 0 None false
    (sample_world Multisig_Wallet (Some 100%Z) 200%Z)
  = (inr (Some locked_dialog), locked_world).
Proof. vm_compute. reflexivity. Qed.

Example locked_world_dialogs : dialogs locked_world = [0].
Proof. vm_compute. reflexivity. Qed.

Example last_second_world_dialogs : dialogs last_second_world = [0].
Proof. vm_compute. reflexivity. Qed.

Example expired_world_dialogs : dialogs expired_world = [].
Proof. vm_compute. reflexivity. Qed.

Example expired_dialog_closed : Closed expired_dialog expired_world.
Proof.
  split; [vm_compute; reflexivity|].
  rewrite expired_world_dialogs. apply not_elem_of_nil.
Qed.

(** A standard wallet and no lock: the dialog opens with the full ten
    minutes, no timer, and a sign button for the half-signed transaction. *)
Example single_sig_dialog_opens :
  let d := opened_dialog Standard_Wallet None 1000%Z in
  time_left_int d = 600%Z ∧ my_qtimer d = false ∧ sign_button d = true
  ∧ save_button d = false ∧ visible d = true.
Proof. vm_compute. repeat split. Qed.

(** A lock that is 100 seconds old: the countdown starts at 500, and the
    500th tick closes the dialog and deletes the lock, once. *)
Example locked_dialog_runs_out :
  let r := run (repeat Tick 500) locked_dialog locked_world in
  time_left_int locked_dialog = 500%Z
  ∧ Expired r.1 ∧ Closed r.1 r.2
  ∧ del_lock_count (server r.2) = 1
  ∧ store (server r.2) !! "w1"%string = None
  ∧ store (server locked_world) !! "w1"%string = Some (mkLockRecord "w1" 100).
Proof.
  intros r.
  assert (Hdialogs : dialogs r.2 = []) by (vm_compute; reflexivity).
  split; [vm_compute; reflexivity|]. split; [vm_compute; reflexivity|].
  split; [split; [vm_compute; reflexivity|]|].
  { rewrite Hdialogs. apply not_elem_of_nil. }
  split; [vm_compute; reflexivity|]. split; vm_compute; reflexivity.
Qed.

(** C1: a lock taken at 100 and found at 200 seeds 600 - 100 = 500. *)
Lemma seeded_countdown_witness :
  let w := sample_world Multisig_Wallet (Some 100%Z) 200%Z in
  sample_deserialize (read (txs w) 0) = inr partial_tx
  ∧ store (server w) !! own_hash (server w) = Some (mkLockRecord "w1" 100)
  ∧ seed_time_left 600 200 100 = 500%Z
  ∧ ∃ d w', __init__ 0 0 None false w = (inr d, w')
            ∧ time_left_int d = seed_time_left DURATION_INT 200 100
            ∧ my_qtimer d = true.
Proof.
  intros w.
  assert (Hparse : sample_deserialize (read (txs w) 0) = inr partial_tx)
    by reflexivity.
  assert (Hlock : store (server w) !! own_hash (server w)
                  = Some (mkLockRecord "w1" 100))
    by (vm_compute; reflexivity).
  assert (Hts : timestamp (mkLockRecord "w1" 100) ≠ 0%Z) by discriminate.
  destruct (seeded_countdown_is_plain_difference sample_deserialize
              sample_is_complete 600%Z 0 0 None false w partial_tx
              (mkLockRecord "w1" 100) Hparse Hlock Hts)
    as (Hseed & _ & _ & Hinit).
  split; [exact Hparse|]. split; [exact Hlock|]. split; [reflexivity|].
  exact Hinit.
Defined.

(** C1 as written fails: a lock taken at 100 and found at 1000 is 900
    seconds old, more than the 600 of [DURATION_INT], and the dialog opens
    with 600 - 900 = -300 on the countdown, not with 0. *)
Lemma seeded_countdown_goes_negative :
  let d := opened_dialog Multisig_Wallet (Some 100%Z) 1000%Z in
  (1000 - 100 > DURATION_INT)%Z
  ∧ time_left_int d = (-300)%Z
  ∧ time_left_int d ≠ 0%Z
  ∧ ¬ (0 ≤ time_left_int d)%Z.
Proof.
  intros d.
  assert (Hleft : time_left_int d = (-300)%Z) by (vm_compute; reflexivity).
  split; [reflexivity|]. split; [exact Hleft|]. rewrite Hleft.
  split; [discriminate | lia].
Qed.

(** C2: the broadcast of the locked dialog times out, and the record is
    gone all the same. *)
Lemma broadcast_deletes_lock_witness :
  let o := BroadcastRaises (TransportError "timed out") in
  is_multisig (wallet locked_dialog) = true
  ∧ let r := do_broadcast o locked_dialog locked_world in
    calls (server r.2)
    = calls (server locked_world)
      ++ [CallWalletHash; CallDelete (own_hash (server locked_world))]
    ∧ store (server r.2) !! own_hash (server locked_world) = None
    ∧ r.1.1 = match o with
              | BroadcastReturns => None
              | BroadcastRaises e => Some e
              end.
Proof.
  intros o. split; [reflexivity|].
  apply (broadcast_always_deletes_lock sample_is_complete o locked_dialog
           locked_world).
  reflexivity.
Defined.

(** C3: three more closes after the first. *)
Lemma close_at_most_once_witness :
  NoDup (dialogs locked_world)
  ∧ is_multisig (wallet locked_dialog) = true
  ∧ let first := close locked_dialog locked_world in
    calls (server first.2)
    = calls (server locked_world)
      ++ (if bool_decide (oid locked_dialog ∈ dialogs locked_world)
          then [CallDelLock] else [])
    ∧ run (repeat Close 3) first.1 first.2 = first
    ∧ ∀ es, del_lock_count (server (run es locked_dialog locked_world).2)
            ≤ S (del_lock_count (server locked_world)).
Proof.
  assert (Hnd : NoDup (dialogs locked_world)).
  { rewrite locked_world_dialogs. apply NoDup_singleton. }
  split; [exact Hnd|]. split; [reflexivity|].
  apply (close_releases_lock_at_most_once sample_is_complete locked_dialog
           locked_world 3 Hnd).
  reflexivity.
Defined.

(** C4: a standard wallet with no lock on the server. *)
Lemma single_sig_only_reads_witness :
  let w := sample_world Standard_Wallet None 1000%Z in
  is_multisig (wallet_of (main_window w)) = false
  ∧ let r := show_transaction_timeout 0 0 None false w in
    store (server r.2) = store (server w)
    ∧ calls (server r.2)
      = calls (server w)
        ++ match sample_deserialize (read (txs w) 0) with
           | inl _ => []
           | inr _ =>
               CallLock
               :: (if truthy (expire_of (store (server w) !! own_hash (server w)))
                   then [CallGetCurrentTime] else [])
           end
    ∧ ∀ d es, r.1 = inr (Some d) → server (run es d r.2).2 = server r.2.
Proof.
  intros w. split; [reflexivity|].
  apply (single_sig_session_only_reads_lock sample_deserialize
           sample_is_complete 0 0 None false w).
  reflexivity.
Defined.

(** C4 as written fails: opening the dialog on a standard wallet evaluates
    [server.lock]. *)
Lemma single_sig_dialog_reads_lock :
  let w := sample_world Standard_Wallet None 1000%Z in
  is_multisig (wallet_of (main_window w)) = false
  ∧ calls (server w) = []
  ∧ calls (server (opened_world Standard_Wallet None 1000%Z)) = [CallLock].
Proof. intros w. repeat split. Qed.

(** C5: the last second of the lock, and the tick after it. *)
Lemma tick_expiry_witness :
  (my_qtimer last_second_dialog = true
   ∧ NoDup (dialogs last_second_world)
   ∧ time_left_int last_second_dialog = 1%Z
   ∧ visible last_second_dialog = true
   ∧ let r := step Tick last_second_dialog last_second_world in
     time_left_int r.1 = 0%Z ∧ Expired r.1 ∧ Closed r.1 r.2
     ∧ r.2 = closeEvent last_second_dialog last_second_world)
  ∧ (my_qtimer expired_dialog = true
     ∧ NoDup (dialogs expired_world)
     ∧ Closed expired_dialog expired_world
     ∧ let r := step Tick expired_dialog expired_world in
       r.2 = expired_world ∧ Closed r.1 r.2
       ∧ timed_out r.1 = timed_out expired_dialog
       ∧ time_left_int r.1 = (time_left_int expired_dialog - 1)%Z).
Proof.
  assert (Hnd1 : NoDup (dialogs last_second_world)).
  { rewrite last_second_world_dialogs. apply NoDup_singleton. }
  assert (Hnd2 : NoDup (dialogs expired_world)).
  { rewrite expired_world_dialogs. apply NoDup_nil_2. }
  assert (Ht1 : my_qtimer last_second_dialog = true) by (vm_compute; reflexivity).
  assert (Ht2 : my_qtimer expired_dialog = true) by (vm_compute; reflexivity).
  assert (Hone : time_left_int last_second_dialog = 1%Z)
    by (vm_compute; reflexivity).
  assert (Hvis : visible last_second_dialog = true) by (vm_compute; reflexivity).
  split.
  - destruct (tick_expires_visible_dialog_only sample_is_complete
                last_second_dialog last_second_world Ht1 Hnd1) as [Hexp _].
    repeat (split; [assumption|]). exact (Hexp Hone Hvis).
  - destruct (tick_expires_visible_dialog_only sample_is_complete
                expired_dialog expired_world Ht2 Hnd2) as [_ Hclosed].
    repeat (split; [assumption || exact expired_dialog_closed|]).
    exact (Hclosed expired_dialog_closed).
Defined.

(** C5 as written fails in its second half: the timer of a closed dialog
    goes on, and its next tick takes the countdown from 0 to -1. *)
Lemma tick_after_close_still_counts :
  Closed expired_dialog expired_world
  ∧ time_left_int expired_dialog = 0%Z
  ∧ time_left_int (step Tick expired_dialog expired_world).1 = (-1)%Z
  ∧ (step Tick expired_dialog expired_world).1 ≠ expired_dialog.
Proof.
  split; [exact expired_dialog_closed|].
  split; [vm_compute; reflexivity|].
  split; [vm_compute; reflexivity|].
  intros Heq. apply (f_equal time_left_int) in Heq. vm_compute in Heq.
  discriminate.
Qed.

(** C6: the garbage behind reference 1. *)
Lemma malformed_transaction_witness :
  let w := sample_world Multisig_Wallet (Some 100%Z) 200%Z in
  sample_deserialize (read (txs w) 1) = inl "unexpected end of data"%string
  ∧ (__init__ 1 0 None false w).1
    = inl (SerializationError "unexpected end of data")
  ∧ let r := show_transaction_timeout 1 0 None false w in
    r.1 = inr None
    ∧ dialogs r.2 = dialogs w
    ∧ server r.2 = server w
    ∧ critical_shown r.2
      = critical_shown w
        ++ [String.append deserialize_failure_text
              (String.append newline "unexpected end of data")].
Proof.
  intros w. split; [reflexivity|].
  apply (malformed_transaction_opens_nothing sample_deserialize
           sample_is_complete 1 0 None false w).
  reflexivity.
Defined.

(** C7 as written fails: the dialog that has timed out and been closed
    still has its sign button enabled by [update]. *)
Lemma expired_closed_dialog_can_sign :
  Expired expired_dialog
  ∧ Closed expired_dialog expired_world
  ∧ sign_button (update expired_dialog expired_world) = true
  ∧ ¬ (sign_button (update expired_dialog expired_world) = true
       ↔ sample_is_complete (read (txs expired_world) (tx expired_dialog))
         = false
         ∧ (can_sign (wallet expired_dialog)
              (read (txs expired_world) (tx expired_dialog)) = true
            ∨ tx_external_keypairs (main_window expired_world) ≠ ∅)
         ∧ ¬ Expired expired_dialog
         ∧ ¬ Closed expired_dialog expired_world).
Proof.
  assert (Hexp : Expired expired_dialog) by (vm_compute; reflexivity).
  assert (Hsign : sign_button (update expired_dialog expired_world) = true)
    by (vm_compute; reflexivity).
  split; [exact Hexp|]. split; [exact expired_dialog_closed|].
  split; [exact Hsign|].
  intros [Hclaim _]. destruct (Hclaim Hsign) as (_ & _ & Hnot & _).
  exact (Hnot Hexp).
Qed.

(** C8: the second signature arrives. *)
Lemma sign_completion_witness :
  sample_is_complete complete_tx = true
  ∧ let r := sign complete_tx true locked_dialog locked_world in
    (∀ d0 (w0 : @World SampleTx (list string)),
       read (txs w0) (tx d0) = complete_tx →
       sign_done sample_is_complete true d0 w0
       = mkDialog (oid d0) (tx d0) (signed d0) (wallet d0) true false (desc d0)
           (time_left_int d0) (my_qtimer d0) (timed_out d0) (visible d0)
           false (can_broadcast (wallet d0) complete_tx) true
           ((time_left_int d0 / 60)%Z, (time_left_int d0 mod 60)%Z))
    ∧ r.1
      = mkDialog (oid locked_dialog) (tx locked_dialog) (signed locked_dialog)
          (wallet locked_dialog) true false (desc locked_dialog)
          (time_left_int locked_dialog) (my_qtimer locked_dialog)
          (timed_out locked_dialog) (visible locked_dialog)
          false (can_broadcast (wallet locked_dialog) complete_tx) true
          ((time_left_int locked_dialog / 60)%Z,
           (time_left_int locked_dialog mod 60)%Z)
    ∧ (label_fresh locked_dialog
       → time_out_label r.1 = time_out_label locked_dialog)
    ∧ (read (txs r.2) (tx locked_dialog) = complete_tx
       ∧ (∀ l, l ≠ tx locked_dialog
               → read (txs r.2) l = read (txs locked_world) l)
       ∧ next_loc (txs r.2) = next_loc (txs locked_world)
       ∧ signeds r.2 = signeds locked_world
       ∧ dialogs r.2 = dialogs locked_world
       ∧ next_oid r.2 = next_oid locked_world
       ∧ main_window r.2 = main_window locked_world
       ∧ critical_shown r.2 = critical_shown locked_world)
    ∧ (server r.2 = server locked_world
       ∧ store (server r.2) !! own_hash (server r.2)
         = store (server locked_world) !! own_hash (server locked_world)).
Proof.
  split; [reflexivity|].
  apply (sign_completion_keeps_lock sample_is_complete complete_tx true
           locked_dialog locked_world).
  reflexivity.
Defined.

(** C8 as written fails in its frame: the dialog was opened with
    [prompt_if_unsaved] off and had been exported, so [saved] was on; the
    completed signature turns the first on and the second off. *)
Lemma sign_completion_changes_save_flags :
  let d := export "unsigned.txn" locked_dialog in
  let r := sign complete_tx true d locked_world in
  sample_is_complete complete_tx = true
  ∧ (prompt_if_unsaved d = false ∧ prompt_if_unsaved r.1 = true)
  ∧ (saved d = true ∧ saved r.1 = false)
  ∧ r.1 ≠ set_sign_button false (set_save_button true d).
Proof.
  intros d r. split; [reflexivity|].
  split; [split; vm_compute; reflexivity|].
  split; [split; vm_compute; reflexivity|].
  intros Heq. apply (f_equal prompt_if_unsaved) in Heq. vm_compute in Heq.
  discriminate.
Qed.

(** C9: the caller's objects are rewritten while the dialog is used. *)
Lemma deepcopy_shields_witness :
  let w := sample_world Multisig_Wallet (Some 100%Z) 200%Z in
  0 < next_loc (txs w)
  ∧ 0 < next_loc (signeds w)
  ∧ Forall (older_than w) busy_afternoon
  ∧ (tx locked_dialog ≠ 0 ∧ signed locked_dialog ≠ 0)
  ∧ (∃ t, sample_deserialize (read (txs w) 0) = inr t
          ∧ read (txs locked_world) (tx locked_dialog)
            = add_inputs_info (wallet_of (main_window w)) t)
  ∧ read (signeds locked_world) (signed locked_dialog) = read (signeds w) 0
  ∧ (read (txs locked_world) 0 = read (txs w) 0
     ∧ read (signeds locked_world) 0 = read (signeds w) 0)
  ∧ (run_all busy_afternoon locked_dialog locked_world).1
    = (run (ui_only busy_afternoon) locked_dialog locked_world).1
  ∧ same_for locked_dialog
      (run_all busy_afternoon locked_dialog locked_world).2
      (run (ui_only busy_afternoon) locked_dialog locked_world).2.
Proof.
  intros w.
  assert (Htx : 0 < next_loc (txs w)) by (cbn; lia).
  assert (Hsig : 0 < next_loc (signeds w)) by (cbn; lia).
  assert (Hacts : Forall (older_than w) busy_afternoon).
  { unfold busy_afternoon. repeat (apply Forall_cons; split; [cbn; try lia; exact I|]).
    apply Forall_nil_2. }
  split; [exact Htx|]. split; [exact Hsig|]. split; [exact Hacts|].
  exact (deepcopy_shields_dialog sample_deserialize sample_is_complete
           0 0 None false w locked_dialog locked_world busy_afternoon
           Htx Hsig locked_dialog_opens Hacts).
Defined.

(** The copy behind the locked dialog is the half-signed transaction that
    was handed in. *)
Example locked_dialog_snapshot :
  read (txs locked_world) (tx locked_dialog) = partial_tx
  ∧ read (txs (sample_world Multisig_Wallet (Some 100%Z) 200%Z)) 0 = partial_tx.
Proof. split; reflexivity. Qed.

(** C10: a lock taken at 100 and found at 1000. *)
Lemma stale_lock_witness :
  let w := sample_world Multisig_Wallet (Some 100%Z) 1000%Z in
  sample_deserialize (read (txs w) 0) = inr partial_tx
  ∧ store (server w) !! own_hash (server w) = Some (mkLockRecord "w1" 100)
  ∧ (DURATION_INT ≤ clock (server w) - 100)%Z
  ∧ ∃ d w',
      show_transaction_timeout 0 0 None false w = (inr (Some d), w')
      ∧ my_qtimer d = true
      ∧ (time_left_int d ≤ 0)%Z
      ∧ (∀ n,
           time_left_int (run (repeat Tick n) d w').1
           = (time_left_int d - Z.of_nat n)%Z
           ∧ timed_out (run (repeat Tick n) d w').1 = false
           ∧ visible (run (repeat Tick n) d w').1 = true
           ∧ (run (repeat Tick n) d w').2 = w')
      ∧ (∀ es,
           time_left_int (run es d w').1
           = (time_left_int d - Z.of_nat (ticks es))%Z
           ∧ timed_out (run es d w').1 = false).
Proof.
  intros w.
  assert (Hparse : sample_deserialize (read (txs w) 0) = inr partial_tx)
    by reflexivity.
  assert (Hlock : store (server w) !! own_hash (server w)
                  = Some (mkLockRecord "w1" 100))
    by (vm_compute; reflexivity).
  assert (Hts : timestamp (mkLockRecord "w1" 100) ≠ 0%Z) by discriminate.
  assert (Hold : (DURATION_INT
                  ≤ clock (server w) - timestamp (mkLockRecord "w1" 100))%Z)
    by (vm_compute; discriminate).
  split; [exact Hparse|]. split; [exact Hlock|]. split; [exact Hold|].
  exact (stale_lock_never_expires sample_deserialize sample_is_complete
           0 0 None false w partial_tx (mkLockRecord "w1" 100)
           Hparse Hlock Hts Hold).
Defined.

(** X2: the label after the user's events on the locked dialog. *)
Lemma label_shows_countdown_witness :
  show_transaction_timeout 0 0 None false
    (sample_world Multisig_Wallet (Some 100%Z) 200%Z)
  = (inr (Some locked_dialog), locked_world)
  ∧ let d1 := (run busy_user locked_dialog locked_world).1 in
    label_fresh d1
    ∧ (0 ≤ (time_out_label d1).2 < 60)%Z
    ∧ (60 * (time_out_label d1).1 + (time_out_label d1).2 = time_left_int d1)%Z.
Proof.
  split; [exact locked_dialog_opens|].
  exact (label_always_shows_countdown sample_deserialize sample_is_complete
           0 0 None false _ locked_dialog locked_world busy_user
           locked_dialog_opens).
Defined.

(** X4: a lock whose timestamp is 0 counts as no lock. *)
Lemma dialog_without_lock_witness :
  let w := sample_world Multisig_Wallet (Some 0%Z) 1000%Z in
  sample_deserialize (read (txs w) 0) = inr partial_tx
  ∧ store (server w) !! own_hash (server w) = Some (mkLockRecord "w1" 0)
  ∧ ∃ d w',
      show_transaction_timeout 0 0 None false w = (inr (Some d), w')
      ∧ my_qtimer d = false
      ∧ time_left_int d = DURATION_INT
      ∧ calls (server w') = calls (server w) ++ [CallLock]
      ∧ my_qtimer (run busy_user d w').1 = false
      ∧ time_left_int (run busy_user d w').1 = DURATION_INT
      ∧ timed_out (run busy_user d w').1 = false.
Proof.
  intros w.
  assert (Hparse : sample_deserialize (read (txs w) 0) = inr partial_tx)
    by reflexivity.
  assert (Hlock : store (server w) !! own_hash (server w)
                  = Some (mkLockRecord "w1" 0))
    by (vm_compute; reflexivity).
  split; [exact Hparse|]. split; [exact Hlock|].
  apply (dialog_without_lock_never_times_out sample_deserialize
           sample_is_complete 0 0 None false w partial_tx busy_user Hparse).
  intros r Hr. rewrite Hlock in Hr. by injection Hr as <-.
Defined.

Example sample_world_registry_ok c lock now :
  registry_ok (sample_world c lock now).
Proof. split; [apply NoDup_nil_2|]. intros i Hi. by apply not_elem_of_nil in Hi. Qed.

(** X5: the lock is 100 seconds old, the dialog has 500 seconds. *)
Lemma dialog_expires_on_time_witness :
  let w := sample_world Multisig_Wallet (Some 100%Z) 200%Z in
  registry_ok w
  ∧ sample_deserialize (read (txs w) 0) = inr partial_tx
  ∧ store (server w) !! own_hash (server w) = Some (mkLockRecord "w1" 100)
  ∧ (clock (server w) - 100 < DURATION_INT)%Z
  ∧ ∃ d w',
      show_transaction_timeout 0 0 None false w = (inr (Some d), w')
      ∧ time_left_int d = 500%Z
      ∧ Expired (run (repeat Tick 500) d w').1
      ∧ Closed (run (repeat Tick 500) d w').1 (run (repeat Tick 500) d w').2.
Proof.
  intros w.
  assert (Hparse : sample_deserialize (read (txs w) 0) = inr partial_tx)
    by reflexivity.
  assert (Hlock : store (server w) !! own_hash (server w)
                  = Some (mkLockRecord "w1" 100))
    by (vm_compute; reflexivity).
  assert (Hts : timestamp (mkLockRecord "w1" 100) ≠ 0%Z) by discriminate.
  assert (Hyoung : (clock (server w) - timestamp (mkLockRecord "w1" 100)
                    < DURATION_INT)%Z) by (vm_compute; reflexivity).
  split; [apply sample_world_registry_ok|]. split; [exact Hparse|].
  split; [exact Hlock|]. split; [exact Hyoung|].
  destruct (dialog_expires_exactly_on_time sample_deserialize
              sample_is_complete 0 0 None false w partial_tx
              (mkLockRecord "w1" 100) (sample_world_registry_ok _ _ _)
              Hparse Hlock Hts Hyoung)
    as (d & w' & Hshow & Hleft & _ & _ & Hexp & Hclosed & _).
  exists d, w'. split; [exact Hshow|]. split; [exact Hleft|].
  split; [exact Hexp | exact Hclosed].
Defined.

(** X6: the locked dialog through the user's events. *)
Lemma dialog_listed_while_visible_witness :
  let w := sample_world Multisig_Wallet (Some 100%Z) 200%Z in
  registry_ok w
  ∧ show_transaction_timeout 0 0 None false w
    = (inr (Some locked_dialog), locked_world)
  ∧ let r := run busy_user locked_dialog locked_world in
    listed_while_visible r.1 r.2 ∧ (Expired r.1 → Closed r.1 r.2).
Proof.
  intros w. split; [apply sample_world_registry_ok|].
  split; [exact locked_dialog_opens|].
  exact (dialog_listed_while_visible sample_deserialize sample_is_complete
           0 0 None false w locked_dialog locked_world busy_user
           (sample_world_registry_ok _ _ _) locked_dialog_opens).
Defined.


(** X10: the first dialog of the sample world. *)
Lemma opening_lists_dialog_witness :
  let w := sample_world Multisig_Wallet (Some 100%Z) 200%Z in
  registry_ok w
  ∧ show_transaction_timeout 0 0 None false w
    = (inr (Some locked_dialog), locked_world)
  ∧ (oid locked_dialog ∉ dialogs w)
  ∧ dialogs locked_world = dialogs w ++ [oid locked_dialog]
  ∧ visible locked_dialog = true
  ∧ registry_ok locked_world.
Proof.
  intros w. split; [apply sample_world_registry_ok|].
  split; [exact locked_dialog_opens|].
  exact (opening_lists_dialog_once sample_deserialize sample_is_complete
           0 0 None false w locked_dialog locked_world
           (sample_world_registry_ok _ _ _) locked_dialog_opens).
Defined.

Example two_dialog_world_dialogs : dialogs two_dialog_world = [0; 1].
Proof. vm_compute. reflexivity. Qed.

Example two_dialog_world_NoDup : NoDup (dialogs two_dialog_world).
Proof.
  rewrite two_dialog_world_dialogs.
  apply NoDup_cons. split; [|apply NoDup_singleton].
  intros Hin. apply list_elem_of_singleton in Hin. discriminate.
Qed.

(** X11: closing the first of two dialogs. *)
Lemma closing_unlists_only_self_witness :
  NoDup (dialogs two_dialog_world)
  ∧ dialogs (close locked_dialog two_dialog_world).2
    = filter (λ i, i ≠ oid locked_dialog) (dialogs two_dialog_world)
  ∧ dialogs (close locked_dialog two_dialog_world).2 = [1].
Proof.
  split; [exact two_dialog_world_NoDup|].
  destruct (closing_unlists_only_self locked_dialog two_dialog_world
              two_dialog_world_NoDup) as (Hfilter & _).
  split; [exact Hfilter|]. vm_compute. reflexivity.
Defined.

(** X12: the second dialog counts on after the first is closed. *)
Lemma shared_lock_witness :
  oid locked_dialog ∈ dialogs two_dialog_world
  ∧ oid second_dialog ∈ dialogs two_dialog_world
  ∧ oid locked_dialog ≠ oid second_dialog
  ∧ is_multisig (wallet locked_dialog) = true
  ∧ my_qtimer second_dialog = true
  ∧ (Z.of_nat 10 < time_left_int second_dialog)%Z
  ∧ let w1 := (close locked_dialog two_dialog_world).2 in
    store (server w1) !! own_hash (server two_dialog_world) = None
    ∧ oid second_dialog ∈ dialogs w1
    ∧ time_left_int (run (repeat Tick 10) second_dialog w1).1
      = (time_left_int second_dialog - Z.of_nat 10)%Z
    ∧ timed_out (run (repeat Tick 10) second_dialog w1).1
      = timed_out second_dialog
    ∧ (run (repeat Tick 10) second_dialog w1).2 = w1.
Proof.
  assert (Hin1 : oid locked_dialog ∈ dialogs two_dialog_world).
  { rewrite two_dialog_world_dialogs. apply elem_of_cons. by left. }
  assert (Hin2 : oid second_dialog ∈ dialogs two_dialog_world).
  { rewrite two_dialog_world_dialogs. apply elem_of_cons. right.
    by apply list_elem_of_singleton. }
  assert (Hne : oid locked_dialog ≠ oid second_dialog) by discriminate.
  assert (Hmulti : is_multisig (wallet locked_dialog) = true) by reflexivity.
  assert (Htimer : my_qtimer second_dialog = true) by (vm_compute; reflexivity).
  assert (Hn : (Z.of_nat 10 < time_left_int second_dialog)%Z)
    by (vm_compute; reflexivity).
  repeat (split; [assumption|]).
  exact (closing_one_dialog_releases_shared_lock sample_is_complete
           locked_dialog second_dialog two_dialog_world 10
           Hin1 Hin2 Hne Hmulti Htimer Hn).
Defined.

(** X14: 500 seconds read "08:20". *)
Lemma countdown_label_witness :
  (0 ≤ time_left_int locked_dialog < 6000)%Z
  ∧ String.length (time_out_text (update locked_dialog locked_world)) = 16
  ∧ time_out_text (update locked_dialog locked_world) = "Time left: 08:20".
Proof.
  assert (Hleft : time_left_int locked_dialog = 500%Z)
    by (vm_compute; reflexivity).
  assert (Hrange : (0 ≤ time_left_int locked_dialog < 6000)%Z)
    by (rewrite Hleft; lia).
  split; [exact Hrange|].
  destruct (countdown_label_reads_mm_ss sample_is_complete locked_dialog
              locked_world Hrange) as (_ & Hlen & _).
  split; [exact Hlen|]. vm_compute. reflexivity.
Defined.

(** X15: the dialog opened on the lock that was 900 seconds old. *)
Lemma negative_countdown_label_witness :
  let d := opened_dialog Multisig_Wallet (Some 100%Z) 1000%Z in
  let w := opened_world Multisig_Wallet (Some 100%Z) 1000%Z in
  (time_left_int d < 0)%Z
  ∧ (∃ minutes,
       time_out_text (update d w)
       = "Time left: -" +:+ minutes +:+ ":"
         +:+ format_02d (time_left_int d mod 60))
  ∧ time_out_text (update d w) = "Time left: -5:00".
Proof.
  intros d w.
  assert (Hneg : (time_left_int d < 0)%Z) by (vm_compute; reflexivity).
  split; [exact Hneg|].
  destruct (negative_countdown_label sample_is_complete d w Hneg)
    as (minutes & Htext & _).
  split; [by exists minutes|]. vm_compute. reflexivity.
Defined.

(** X16: broadcast, then close, on the locked dialog. *)
Lemma broadcast_then_close_witness :
  oid locked_dialog ∈ dialogs locked_world
  ∧ is_multisig (wallet locked_dialog) = true
  ∧ calls (server (run [Broadcast BroadcastReturns; Close]
                     locked_dialog locked_world).2)
    = calls (server locked_world)
      ++ [CallWalletHash; CallDelete (own_hash (server locked_world));
          CallDelLock]
  ∧ store (server (run [Broadcast BroadcastReturns; Close]
                     locked_dialog locked_world).2)
      !! own_hash (server locked_world) = None.
Proof.
  assert (Hin : oid locked_dialog ∈ dialogs locked_world).
  { rewrite locked_world_dialogs. by apply list_elem_of_singleton. }
  assert (Hmulti : is_multisig (wallet locked_dialog) = true) by reflexivity.
  split; [exact Hin|]. split; [exact Hmulti|].
  destruct (broadcast_then_close_deletes_twice sample_is_complete
              BroadcastReturns locked_dialog locked_world Hin Hmulti)
    as (_ & Hcalls & Hgone & _).
  split; [exact Hcalls | exact Hgone].
Defined.

End Examples.
